(** * zink_extensions.py: extension descriptors and the Vulkan registry reader

    A shallow embedding of [src/gallium/drivers/zink/zink_extensions.py]
    (classes [Version], [Extension], [ExtensionRegistryEntry] and
    [ExtensionRegistry]) and the properties proved about it.

    Conventions of the embedding:
    - a Python [str] is a [string]; identifiers of the Vulkan registry are
      ASCII, and the case mappings below act on the ASCII letters only;
    - a Python [int] is a [Z];
    - a value that may be [None] is an [option];
    - a call that may raise returns a [Result];
    - the dictionary [ExtensionRegistry.registry] is a [gmap] keyed by the
      extension name; it is an attribute of the class, shared by the
      instances, so it is passed to the constructor and to the queries as
      explicit state;
    - the document is taken as [ElementTree.parse] returns it, a tree of
      elements; reading and parsing the file are outside the embedding. *)

From Stdlib Require Import ZArith String Ascii List.
From Stdlib Require Import DecimalString DecimalPos DecimalZ.
From stdpp Require Import gmap strings.

Local Open Scope string_scope.
Local Open Scope list_scope.
#[local] Set Warnings "-register-all".

(** ** Exceptions and results *)

Inductive PyExn : Type :=
  | RuntimeError (msg : string)
  | IndexError
  | KeyError (key : string)
  | ValueError
  | TypeError.

Inductive Result (A : Type) : Type :=
  | Ok (a : A)
  | Raise (e : PyExn).

Arguments Ok {A} a.
Arguments Raise {A} e.

(** Sequencing: an exception raised by [m] is raised by the whole. *)
Definition bind {A B : Type} (m : Result A) (k : A → Result B) : Result B :=
  match m with
  | Ok a => k a
  | Raise e => Raise e
  end.

Notation "x <- m ;; k" := (bind m (λ x, k))
  (at level 100, m at next level, right associativity,
   format "'[v' x  <-  m  ;;  '/' k ']'").

Definition returns {A : Type} (m : Result A) : Prop := ∃ a, m = Ok a.

(** ** The built-ins of Python the module relies on *)

Module Py.

(** Truth value of an [Optional[str]]: [None] and the empty string are
    false. *)
Definition truthy (o : option string) : bool :=
  match o with
  | Some s => negb (String.eqb s "")
  | None => false
  end.

(** [s.split(sep)] for a one-character separator: the first token and the
    tokens after it. *)
Fixpoint split_aux (sep : ascii) (s : string) : string * list string :=
  match s with
  | EmptyString => (EmptyString, [])
  | String c s' =>
      let (tok, toks) := split_aux sep s' in
      if Ascii.eqb c sep then (EmptyString, tok :: toks)
      else (String c tok, toks)
  end.

Definition split (sep : ascii) (s : string) : list string :=
  let (tok, toks) := split_aux sep s in tok :: toks.

(** [sep.join(l)] *)
Definition join (sep : string) (l : list string) : string :=
  String.concat sep l.

(** [l[i]] for [i >= 0] *)
Definition index {A : Type} (l : list A) (i : nat) : Result A :=
  match l !! i with
  | Some x => Ok x
  | None => Raise IndexError
  end.

(** [l[i:]] and [l[-i:]]: slices never raise *)
Definition slice_from {A : Type} (i : nat) (l : list A) : list A :=
  drop i l.

Definition slice_last {A : Type} (i : nat) (l : list A) : list A :=
  drop (length l - i) l.

(** [s[i:]] *)
Fixpoint str_slice_from (i : nat) (s : string) : string :=
  match i, s with
  | O, _ => s
  | S _, EmptyString => EmptyString
  | S i', String _ s' => str_slice_from i' s'
  end.

Definition is_lower (c : ascii) : bool :=
  let n := nat_of_ascii c in (97 <=? n)%nat && (n <=? 122)%nat.

Definition is_upper (c : ascii) : bool :=
  let n := nat_of_ascii c in (65 <=? n)%nat && (n <=? 90)%nat.

Definition is_cased (c : ascii) : bool := is_lower c || is_upper c.

Definition to_upper (c : ascii) : ascii :=
  if is_lower c then ascii_of_nat (nat_of_ascii c - 32) else c.

Definition to_lower (c : ascii) : ascii :=
  if is_upper c then ascii_of_nat (nat_of_ascii c + 32) else c.

(** [s.upper()] *)
Fixpoint upper (s : string) : string :=
  match s with
  | EmptyString => EmptyString
  | String c s' => String (to_upper c) (upper s')
  end.

(** [s.title()]: a cased character is upper-cased when the character
    before it is not cased, and lower-cased otherwise. *)
Fixpoint title_from (prev_cased : bool) (s : string) : string :=
  match s with
  | EmptyString => EmptyString
  | String c s' =>
      String (if prev_cased then to_lower c else to_upper c)
             (title_from (is_cased c) s')
  end.

Definition title (s : string) : string := title_from false s.

(** the one-character string holding a double quote *)
Definition dquote : string := String (ascii_of_nat 34) EmptyString.

(** [c in s] for a character [c] *)
Fixpoint occurs (c : ascii) (s : string) : bool :=
  match s with
  | EmptyString => false
  | String c' s' => Ascii.eqb c' c || occurs c s'
  end.

(** [s.startswith(p)] *)
Definition startswith (s p : string) : bool := String.prefix p s.

(** [s.endswith(p)] *)
Fixpoint endswith (s p : string) : bool :=
  String.eqb s p ||
  match s with
  | EmptyString => false
  | String _ s' => endswith s' p
  end.

(** [str(n)] for an [int] *)
Definition str (n : Z) : string := NilZero.string_of_int (Z.to_int n).

(** [int(s)]: white space around the literal (tab, line feed, vertical
    tab, form feed, carriage return and space) is dropped, then an
    optional sign and a non-empty run of decimal digits is read.
    (Digit-grouping underscores cannot occur in a token of [split "_"].) *)
Definition is_space (c : ascii) : bool :=
  let n := nat_of_ascii c in
  ((9 <=? n)%nat && (n <=? 13)%nat) || Nat.eqb n 32.

Definition is_digit (c : ascii) : bool :=
  let n := nat_of_ascii c in (48 <=? n)%nat && (n <=? 57)%nat.

Fixpoint lstrip (s : string) : string :=
  match s with
  | String c s' => if is_space c then lstrip s' else s
  | EmptyString => EmptyString
  end.

(** value of a run of digits followed by white space only *)
Fixpoint digits_from (acc : Z) (s : string) : option Z :=
  match s with
  | EmptyString => Some acc
  | String c s' =>
      if is_digit c
      then digits_from (10 * acc + Z.of_nat (nat_of_ascii c - 48)) s'
      else if is_space c then
        match lstrip s' with
        | EmptyString => Some acc
        | String _ _ => None
        end
      else None
  end.

Definition unsigned_literal (s : string) : option Z :=
  match s with
  | String c _ => if is_digit c then digits_from 0 s else None
  | EmptyString => None
  end.

Definition int (s : string) : Result Z :=
  let literal :=
    match lstrip s with
    | String "+" s' => unsigned_literal s'
    | String "-" s' => Z.opp <$> unsigned_literal s'
    | s' => unsigned_literal s'
    end in
  match literal with
  | Some n => Ok n
  | None => Raise ValueError
  end.

End Py.

(** ** class Version *)

Record Version : Type := mkVersion {
  device_version : Z * Z * Z;
  struct_version : Z * Z;
}.

(** [Version.__init__(self, version, struct=())]: [struct] is [None] for
    the empty tuple, the only tuple whose truth value is false. *)
Definition Version_init (version : Z * Z * Z) (struct : option (Z * Z)) : Version :=
  let '(v0, v1, _) := version in
  {| device_version := version;
     struct_version :=
       match struct with
       | None => (v0, v1)
       | Some sv => sv
       end |}.

Definition Version_version (self : Version) : string :=
  let '(v0, v1, v2) := device_version self in
  "VK_MAKE_VERSION(" +:+ Py.str v0 +:+ "," +:+ Py.str v1 +:+ "," +:+ Py.str v2 +:+ ")".

Definition Version_struct (self : Version) : string :=
  Py.str (fst (struct_version self)) +:+ Py.str (snd (struct_version self)).

Definition Version_stype (self : Version) (struct : string) : string :=
  "VK_STRUCTURE_TYPE_PHYSICAL_DEVICE_VULKAN_"
  +:+ Py.str (fst (struct_version self)) +:+ "_" +:+ Py.str (snd (struct_version self))
  +:+ "_" +:+ struct.

(** ** class Extension *)

Record Extension : Type := mkExtension {
  name : string;
  alias : string;
  is_required : bool;
  is_nonstandard : bool;
  has_properties : bool;
  has_features : bool;
  enable_conds : option (list string);
  guard : bool;
  core_since : option Version;
  instance_funcs : option (list string);
}.

(** [Extension.__init__]: the fields are stored, then the alias is checked.
    An alias that is not supplied is the default [""]. *)
Definition Extension_init (name alias : string)
    (required nonstandard properties features : bool)
    (conditions : option (list string)) (guard : bool)
    (core_since : option Version) (functions : option (list string))
    : Result Extension :=
  let self :=
    {| name := name; alias := alias; is_required := required;
       is_nonstandard := nonstandard; has_properties := properties;
       has_features := features; enable_conds := conditions; guard := guard;
       core_since := core_since; instance_funcs := functions |} in
  if String.eqb alias "" && (properties || features)
  then Raise (RuntimeError "alias must be available when properties and/or features are used")
  else Ok self.

Definition pure_name (self : Extension) : Result string :=
  Ok (Py.join "_" (Py.slice_from 2 (Py.split "_" (name self)))).

Definition name_with_vendor (self : Extension) : Result string :=
  Ok (Py.str_slice_from 3 (name self)).

Definition name_in_camel_case (self : Extension) : Result string :=
  Ok (Py.join "" (Py.title <$> Py.slice_from 2 (Py.split "_" (name self)))).

Definition extension_name (self : Extension) : Result string :=
  Ok (Py.upper (name self) +:+ "_EXTENSION_NAME").

Definition extension_name_literal (self : Extension) : Result string :=
  Ok (Py.dquote +:+ name self +:+ Py.dquote).

Definition field (self : Extension) (suffix : string) : Result string :=
  Ok (alias self +:+ "_" +:+ suffix).

Definition vendor (self : Extension) : Result string :=
  Py.index (Py.split "_" (name self)) 1.

Definition physical_device_struct (self : Extension) (struct : string) : Result string :=
  camel <- name_in_camel_case self ;;
  let struct := if Py.endswith camel struct then "" else struct in
  camel' <- name_in_camel_case self ;;
  v <- vendor self ;;
  Ok ("VkPhysicalDevice" +:+ camel' +:+ struct +:+ v).

Definition stype (self : Extension) (struct : string) : Result string :=
  pure <- pure_name self ;;
  v <- vendor self ;;
  Ok ("VK_STRUCTURE_TYPE_PHYSICAL_DEVICE_" +:+ Py.upper pure +:+ "_" +:+ struct +:+ "_" +:+ v).

(** [Layer = Extension] *)
Abbreviation Layer := Extension.

(** ** Regular expressions: [re.match]

    The two patterns of the module are built from literal characters,
    [.] (any character but a newline) and [*].  [re.match] succeeds when
    some prefix of the subject is in the language of the pattern; matching
    goes by derivatives. *)

Module Re.

Inductive regex : Type :=
  | Void
  | Eps
  | Chr (c : ascii)
  | Dot
  | Cat (r1 r2 : regex)
  | Alt (r1 r2 : regex)
  | Star (r : regex).

Fixpoint lit (s : string) : regex :=
  match s with
  | EmptyString => Eps
  | String c s' => Cat (Chr c) (lit s')
  end.

Fixpoint nullable (r : regex) : bool :=
  match r with
  | Void => false
  | Eps => true
  | Chr _ => false
  | Dot => false
  | Cat r1 r2 => nullable r1 && nullable r2
  | Alt r1 r2 => nullable r1 || nullable r2
  | Star _ => true
  end.

Definition newline : ascii := ascii_of_nat 10.

Fixpoint deriv (c : ascii) (r : regex) : regex :=
  match r with
  | Void => Void
  | Eps => Void
  | Chr c' => if Ascii.eqb c c' then Eps else Void
  | Dot => if Ascii.eqb c newline then Void else Eps
  | Cat r1 r2 =>
      if nullable r1 then Alt (Cat (deriv c r1) r2) (deriv c r2)
      else Cat (deriv c r1) r2
  | Alt r1 r2 => Alt (deriv c r1) (deriv c r2)
  | Star r' => Cat (deriv c r') (Star r')
  end.

(** [re.match(r, s) is not None] *)
Fixpoint matches (r : regex) (s : string) : bool :=
  nullable r ||
  match s with
  | EmptyString => false
  | String c s' => matches (deriv c r) s'
  end.

(** The language of a pattern, for the correctness of [matches]. *)
Inductive lang : regex → string → Prop :=
  | lang_eps : lang Eps EmptyString
  | lang_chr c : lang (Chr c) (String c EmptyString)
  | lang_dot c : c ≠ newline → lang Dot (String c EmptyString)
  | lang_cat r1 r2 s1 s2 : lang r1 s1 → lang r2 s2 → lang (Cat r1 r2) (s1 +:+ s2)
  | lang_alt_l r1 r2 s : lang r1 s → lang (Alt r1 r2) s
  | lang_alt_r r1 r2 s : lang r2 s → lang (Alt r1 r2) s
  | lang_star_nil r : lang (Star r) EmptyString
  | lang_star_cons r s1 s2 : lang r s1 → lang (Star r) s2 → lang (Star r) (s1 +:+ s2).

End Re.

(** ** The registry document

    What [ElementTree.parse] returns: a tree of elements, each with a tag,
    a dictionary of attributes and its children in document order. *)

Inductive Element : Type :=
  mkElement (tag : string) (attrib : gmap string string) (children : list Element).

Definition tag (e : Element) : string :=
  let 'mkElement t _ _ := e in t.

Definition attrib (e : Element) : gmap string string :=
  let 'mkElement _ a _ := e in a.

Definition children (e : Element) : list Element :=
  let 'mkElement _ _ c := e in c.

(** [e.get(key)] *)
Definition Element_get (e : Element) (key : string) : option string :=
  attrib e !! key.

(** [e.attrib[key]] *)
Definition attrib_getitem (e : Element) (key : string) : Result string :=
  match attrib e !! key with
  | Some v => Ok v
  | None => Raise (KeyError key)
  end.

(** One step of a path: the children with the given tag, in document
    order. *)
Definition select_child (tg : string) (elems : list Element) : list Element :=
  e ← elems; filter (λ c, tag c = tg) (children e).

(** [e.findall(path)] for a path of tags separated by [/]. *)
Definition findall (e : Element) (path : string) : list Element :=
  foldl (λ elems tg, select_child tg elems) [e] (Py.split "/" path).

(** ** class ExtensionRegistryEntry *)

Record ExtensionRegistryEntry : Type := mkEntry {
  ext_type : string;
  promoted_in : option (Z * Z);
  commands : option (list (option string));
  constants : option (list (option string));
  features_struct : option string;
  properties_struct : option string;
}.

(** [ExtensionRegistryEntry()]: the attributes of the class *)
Definition ExtensionRegistryEntry_new : ExtensionRegistryEntry :=
  {| ext_type := ""; promoted_in := None; commands := None; constants := None;
     features_struct := None; properties_struct := None |}.

(** ** class ExtensionRegistry *)

Definition parse_promotedto (promotedto : option string) : Result (option (Z * Z)) :=
  match promotedto with
  | Some s =>
      if Py.truthy promotedto && Py.startswith s "VK_VERSION_" then
        match Py.slice_last 2 (Py.split "_" s) with
        | [major; minor] =>
            ma <- Py.int major ;;
            mi <- Py.int minor ;;
            Ok (Some (ma, mi))
        | _ => Raise ValueError
        end
      else Ok None
  | None => Ok None
  end.

Definition features_re : Re.regex :=
  Re.Cat (Re.lit "VkPhysicalDevice")
    (Re.Cat (Re.Star Re.Dot) (Re.Cat (Re.lit "Features") (Re.Star Re.Dot))).

Definition properties_re : Re.regex :=
  Re.Cat (Re.lit "VkPhysicalDevice")
    (Re.Cat (Re.Star Re.Dot) (Re.Cat (Re.lit "Properties") (Re.Star Re.Dot))).

(** [re.match] raises [TypeError] on [None]. *)
Definition is_features_struct (struct : option string) : Result bool :=
  match struct with
  | Some s => Ok (Re.matches features_re s)
  | None => Raise TypeError
  end.

Definition is_properties_struct (struct : option string) : Result bool :=
  match struct with
  | Some s => Ok (Re.matches properties_re s)
  | None => Raise TypeError
  end.

(** The loop over [ext.findall("require/command")]: a command is appended
    when its name is neither [None] nor empty. *)
Definition loop_commands (cmds : list Element) (commands : list (option string))
    : list (option string) :=
  foldl (λ commands cmd,
           let cmd_name := Element_get cmd "name" in
           if Py.truthy cmd_name then commands ++ [cmd_name] else commands)
        commands cmds.

(** The loop over [ext.findall("require/enum")]: the name is appended, as
    [get] returned it, when [extends] is [None] or empty. *)
Definition loop_constants (enums : list Element) (constants : list (option string))
    : list (option string) :=
  foldl (λ constants enum,
           let enum_name := Element_get enum "name" in
           let enum_extends := Element_get enum "extends" in
           if negb (Py.truthy enum_extends) then constants ++ [enum_name] else constants)
        constants enums.

(** The loop over [ext.findall("require/type")], on the pair
    ([features_struct], [properties_struct]) of the entry. *)
Fixpoint loop_types (tys : list Element) (structs : option string * option string)
    : Result (option string * option string) :=
  match tys with
  | [] => Ok structs
  | ty :: tys' =>
      let ty_name := Element_get ty "name" in
      is_features <- is_features_struct ty_name ;;
      if is_features then loop_types tys' (ty_name, snd structs)
      else
        is_properties <- is_properties_struct ty_name ;;
        if is_properties then loop_types tys' (fst structs, ty_name)
        else loop_types tys' structs
  end.

(** The body of the loop of [__init__] for an extension that is not
    disabled: the key and the entry stored under it.  [commands] and
    [constants] are bound to a list, filled by the two loops; the two
    struct names keep the [None] of the class unless a type matches. *)
Definition build_entry (ext : Element) : Result (string * ExtensionRegistryEntry) :=
  name <- attrib_getitem ext "name" ;;
  ext_type <- attrib_getitem ext "type" ;;
  promoted_in <- parse_promotedto (Element_get ext "promotedto") ;;
  let commands := loop_commands (findall ext "require/command") [] in
  let constants := loop_constants (findall ext "require/enum") [] in
  structs <- loop_types (findall ext "require/type")
               (features_struct ExtensionRegistryEntry_new,
                properties_struct ExtensionRegistryEntry_new) ;;
  Ok (name,
      {| ext_type := ext_type; promoted_in := promoted_in;
         commands := Some commands; constants := Some constants;
         features_struct := fst structs; properties_struct := snd structs |}).

(** [registry = dict()] runs once, in the body of the class, and binds the
    class attribute to a dictionary.  [__init__] stores into
    [self.registry] but never binds an attribute of that name on [self],
    so an instance holds nothing of its own and [self.registry] is, for
    every instance, the dictionary of the class.  That dictionary is the
    state: the constructor and the two queries take it as an argument, and
    the constructor returns it as it is left, also when an exception
    leaves the loop. *)
Abbreviation Registry := (gmap string ExtensionRegistryEntry).

Record ExtensionRegistry : Type := mkExtensionRegistry {
  instance_id : nat;
}.

(** [self.registry]: nothing is found on the instance, the lookup ends at
    the class. *)
Definition self_registry (self : ExtensionRegistry) (class_registry : Registry) : Registry :=
  class_registry.

Fixpoint init_loop (exts : list Element) (registry : Registry) : Result unit * Registry :=
  match exts with
  | [] => (Ok (), registry)
  | ext :: exts' =>
      if bool_decide (Element_get ext "supported" = Some "disabled")
      then init_loop exts' registry
      else
        match build_entry ext with
        | Ok (name, entry) => init_loop exts' (<[name := entry]> registry)
        | Raise e => (Raise e, registry)
        end
  end.

(** [ExtensionRegistry.__init__], on the root of the parsed document *)
Definition ExtensionRegistry_init (self : ExtensionRegistry) (vkxml : Element)
    (class_registry : Registry) : Result unit * Registry :=
  init_loop (findall vkxml "extensions/extension") (self_registry self class_registry).

Definition in_registry (self : ExtensionRegistry) (class_registry : Registry)
    (ext_name : string) : bool :=
  bool_decide (ext_name ∈ dom (self_registry self class_registry)).

(** The result is [None] when the function falls off its end. *)
Definition get_registry_entry (self : ExtensionRegistry) (class_registry : Registry)
    (ext_name : string) : Result (option ExtensionRegistryEntry) :=
  if in_registry self class_registry ext_name then
    match self_registry self class_registry !! ext_name with
    | Some entry => Ok (Some entry)
    | None => Raise (KeyError ext_name)
    end
  else Ok None.

(** ** Descriptors and predicates used in the statements *)

(** A descriptor with the given name and alias, the other arguments left
    at their defaults. *)
Definition descriptor (name alias : string) : Extension :=
  mkExtension name alias false false false false None false None None.

(** A token: a string free of underscores. *)
Definition token (t : string) : Prop := Py.occurs "_" t = false.

(** The name holds an underscore, that is, at least two tokens. *)
Definition has_underscore (s : string) : Prop := ∃ a b, s = a +:+ "_" +:+ b.

(** An attribute value that is present and not empty. *)
Definition named (o : option string) : Prop := ∃ s, o = Some s ∧ s ≠ "".

(** An extension element that the loop of [__init__] does not skip. *)
Definition enabled (ext : Element) : Prop :=
  Element_get ext "supported" ≠ Some "disabled".

(** The names of the required types of an extension, in document order. *)
Definition required_type_names (ext : Element) : list string :=
  omap (λ ty, Element_get ty "name") (findall ext "require/type").

(** A character that the case mappings neither produce nor change. *)
Definition fixed_by_case (x : ascii) : Prop :=
  ∀ c, Ascii.eqb (Py.to_upper c) x = Ascii.eqb c x
       ∧ Ascii.eqb (Py.to_lower c) x = Ascii.eqb c x.

(** The entry the loop leaves under a name, when it stores one: that of
    the last enabled extension with the name that the loop reaches. *)
Fixpoint last_stored (exts : list Element) (n : string) : option ExtensionRegistryEntry :=
  match exts with
  | [] => None
  | ext :: exts' =>
      if bool_decide (Element_get ext "supported" = Some "disabled")
      then last_stored exts' n
      else
        match build_entry ext with
        | Ok (name, entry) =>
            match last_stored exts' n with
            | Some later => Some later
            | None => if decide (name = n) then Some entry else None
            end
        | Raise _ => None
        end
  end.

(** ** Instances and documents used in the examples *)

Definition elem (tg : string) (attrs : list (string * string)) (kids : list Element)
    : Element :=
  mkElement tg (list_to_map attrs) kids.

Definition registry_of (exts : list Element) : Element :=
  elem "registry" [] [elem "extensions" [] exts].

Definition R1 : ExtensionRegistry := mkExtensionRegistry 1.
Definition R2 : ExtensionRegistry := mkExtensionRegistry 2.

Definition doc_one : Element :=
  registry_of
    [elem "extension" [("name", "VK_EXT_one"); ("type", "device")]
       [elem "require" [] [elem "command" [("name", "vkOne")] []]]].

Definition doc_two : Element :=
  registry_of
    [elem "extension" [("name", "VK_EXT_two"); ("type", "instance")] []].

Definition doc_one_disabled : Element :=
  registry_of
    [elem "extension"
       [("name", "VK_EXT_one"); ("type", "device"); ("supported", "disabled")] []].

(** An example document: two commands, an enum with and one without
    [extends], and a type named as a features struct. *)
Definition ext_example : Element :=
  elem "extension" [("name", "VK_EXT_example"); ("type", "device")]
    [elem "require" []
       [elem "command" [("name", "vkCmdFirstEXT")] [];
        elem "enum" [("name", "VK_EXT_EXAMPLE_EXTENSION_NAME")] [];
        elem "enum" [("name", "VK_EXAMPLE_BIT_EXT"); ("extends", "VkExampleFlagBits")] [];
        elem "type" [("name", "VkPhysicalDeviceExampleFeaturesEXT")] [];
        elem "command" [("name", "vkCmdSecondEXT")] []]].

(** An extension with commands that have no name or an empty one, and an
    enum with neither name nor [extends]. *)
Definition ext_unnamed : Element :=
  elem "extension" [("name", "VK_EXT_unnamed"); ("type", "device")]
    [elem "require" []
       [elem "command" [] [];
        elem "command" [("name", "")] [];
        elem "command" [("name", "vkCmdNamedEXT")] [];
        elem "enum" [] []]].

(** The extension of [ext_example] with the name of its first command
    left out. *)
Definition ext_nameless_command : Element :=
  elem "extension" [("name", "VK_EXT_example"); ("type", "device")]
    [elem "require" []
       [elem "command" [] [];
        elem "enum" [("name", "VK_EXT_EXAMPLE_EXTENSION_NAME")] [];
        elem "enum" [("name", "VK_EXAMPLE_BIT_EXT"); ("extends", "VkExampleFlagBits")] [];
        elem "type" [("name", "VkPhysicalDeviceExampleFeaturesEXT")] [];
        elem "command" [("name", "vkCmdSecondEXT")] []]].

(** The extension of [ext_example] with an [extends] attribute that is
    empty. *)
Definition ext_empty_extends : Element :=
  elem "extension" [("name", "VK_EXT_example"); ("type", "device")]
    [elem "require" []
       [elem "command" [("name", "vkCmdFirstEXT")] [];
        elem "enum" [("name", "VK_EXT_EXAMPLE_EXTENSION_NAME")] [];
        elem "enum" [("name", "VK_EXAMPLE_BIT_EXT"); ("extends", "")] [];
        elem "type" [("name", "VkPhysicalDeviceExampleFeaturesEXT")] [];
        elem "command" [("name", "vkCmdSecondEXT")] []]].

(** A document with an extension that lacks its [type] attribute between
    two well-formed ones. *)
Definition doc_missing_type : Element :=
  registry_of
    [elem "extension" [("name", "VK_EXT_one"); ("type", "device")] [];
     elem "extension" [("name", "VK_EXT_broken")] [];
     elem "extension" [("name", "VK_EXT_two"); ("type", "instance")] []].

(** A document that names one extension twice. *)
Definition doc_twice : Element :=
  registry_of
    [elem "extension" [("name", "VK_EXT_one"); ("type", "device")] [];
     elem "extension" [("name", "VK_EXT_one"); ("type", "instance")] []].

(** An extension with three required types: two named as features
    structs, and one in between named as a properties struct. *)
Definition ext_three_types : Element :=
  elem "extension" [("name", "VK_EXT_three"); ("type", "device")]
    [elem "require" []
       [elem "type" [("name", "VkPhysicalDeviceOldFeaturesEXT")] [];
        elem "type" [("name", "VkPhysicalDeviceSomePropertiesEXT")] [];
        elem "type" [("name", "VkPhysicalDeviceNewFeaturesEXT")] []]].

(** * Properties *)

(** ** Version *)

Example ex_version : Version_version (Version_init (1, 2, 0)%Z None) = "VK_MAKE_VERSION(1,2,0)".
Proof. reflexivity. Qed.

Example ex_version_stype :
  Version_stype (Version_init (1, 2, 0)%Z None) "FEATURES"
  = "VK_STRUCTURE_TYPE_PHYSICAL_DEVICE_VULKAN_1_2_FEATURES".
Proof. reflexivity. Qed.

Lemma Version_init_device_version version struct :
  device_version (Version_init version struct) = version.
Proof. by destruct version as [[v0 v1] v2]. Qed.

Lemma Version_init_override version sv :
  struct_version (Version_init version (Some sv)) = sv.
Proof. by destruct version as [[v0 v1] v2]. Qed.

(** C9: a [Version] built without a struct version takes the first two
    components of the device version as its struct version, and [struct()]
    is the decimal text of the major component followed, with nothing in
    between, by that of the minor component; the struct version (1,0)
    gives the text 10. *)
Theorem Version_struct_version_default :
  (∀ major minor patch : Z,
     struct_version (Version_init (major, minor, patch) None) = (major, minor))
  ∧ (∀ (version : Z * Z * Z) (major minor : Z),
       Version_struct (Version_init version (Some (major, minor)))
       = Py.str major +:+ Py.str minor)
  ∧ (∀ major minor patch : Z,
       Version_struct (Version_init (major, minor, patch) None)
       = Py.str major +:+ Py.str minor)
  ∧ (∀ self : Version,
       Version_struct self
       = Py.str (fst (struct_version self)) +:+ Py.str (snd (struct_version self)))
  ∧ Version_struct (Version_init (1, 0, 0)%Z None) = "10"
  ∧ Version_struct (Version_init (1, 2, 131)%Z (Some (1, 0)%Z)) = "10".
Proof.
  repeat split.
  intros [[v0 v1] v2] major minor. reflexivity.
Qed.

(** ** Extension: construction *)

Section Extension_init.

Variables (name alias : string) (required nonstandard properties features : bool).
Variables (conditions : option (list string)) (guard : bool).
Variables (core_since : option Version) (functions : option (list string)).

Lemma Extension_init_no_flag :
  properties = false → features = false →
  Extension_init name alias required nonstandard properties features
    conditions guard core_since functions
  = Ok (mkExtension name alias required nonstandard properties features
          conditions guard core_since functions).
Proof.
  intros Hp Hf. unfold Extension_init.
  assert (properties || features = false) as Hflags by (by rewrite Hp, Hf).
  by rewrite Hflags, andb_false_r.
Qed.

(** C4: when [properties] or [features] is set, the constructor raises
    the configuration error if no alias is given (the alias is then the
    default empty string) and returns the descriptor, with the arguments
    stored, if one is given. *)
Theorem Extension_init_alias_required :
  properties = true ∨ features = true →
  (alias = "" →
   Extension_init name alias required nonstandard properties features
     conditions guard core_since functions
   = Raise (RuntimeError "alias must be available when properties and/or features are used"))
  ∧ (alias ≠ "" →
     Extension_init name alias required nonstandard properties features
       conditions guard core_since functions
     = Ok (mkExtension name alias required nonstandard properties features
             conditions guard core_since functions)).
Proof.
  intros Hflag. unfold Extension_init. split.
  - intros Halias.
    assert (properties || features = true) as Hflags
      by (destruct Hflag as [Hp | Hf]; [by rewrite Hp | by rewrite Hf, orb_true_r]).
    by rewrite Hflags, Halias.
  - intros Halias. apply String.eqb_neq in Halias. by rewrite Halias.
Qed.

End Extension_init.

Lemma Extension_init_alias_required_witness :
  (true = true ∨ false = true)
  ∧ Extension_init "VK_EXT_robustness2" "" false false true false None false None None
    = Raise (RuntimeError "alias must be available when properties and/or features are used")
  ∧ Extension_init "VK_EXT_robustness2" "rb2" false false true false None false None None
    = Ok (mkExtension "VK_EXT_robustness2" "rb2" false false true false None false None None).
Proof.
  split; [by left |].
  split.
  - apply (Extension_init_alias_required "VK_EXT_robustness2" "" false false true false
             None false None None); [by left | reflexivity].
  - apply (Extension_init_alias_required "VK_EXT_robustness2" "rb2" false false true false
             None false None None); [by left | discriminate].
Defined.

(** ** Facts about the string built-ins *)

Module PyFacts.

Lemma occurs_spec c s :
  Py.occurs c s = true ↔ ∃ a b, s = a +:+ String c b.
Proof.
  induction s as [| c' s' IH]; simpl.
  - split; [done |]. intros ([| x a] & b & Hab); discriminate.
  - rewrite orb_true_iff, IH, Ascii.eqb_eq. split.
    + intros [-> | (a & b & ->)].
      * by exists EmptyString, s'.
      * by exists (String c' a), b.
    + intros ([| x a] & b & Hab); simpl in Hab; injection Hab as -> ->.
      * by left.
      * right. by exists a, b.
Qed.

Lemma occurs_app c a b : Py.occurs c (a +:+ b) = Py.occurs c a || Py.occurs c b.
Proof.
  induction a as [| x a IH]; simpl; [done |].
  by rewrite IH, orb_assoc.
Qed.

Lemma split_aux_token sep t :
  Py.occurs sep t = false → Py.split_aux sep t = (t, []).
Proof.
  induction t as [| c t IH]; simpl; [done |].
  intros [Hc Ht]%orb_false_iff. by rewrite (IH Ht), Hc.
Qed.

Lemma split_token sep t : Py.occurs sep t = false → Py.split sep t = [t].
Proof. intros Ht. unfold Py.split. by rewrite split_aux_token. Qed.

Lemma split_cons sep t s :
  Py.occurs sep t = false →
  Py.split sep (t +:+ String sep s) = t :: Py.split sep s.
Proof.
  unfold Py.split. induction t as [| c t IH]; simpl.
  - intros _. rewrite Ascii.eqb_refl. by destruct (Py.split_aux sep s).
  - intros [Hc Ht]%orb_false_iff. specialize (IH Ht).
    destruct (Py.split_aux sep (t +:+ String sep s)) as [tok toks].
    rewrite Hc. by injection IH as -> ->.
Qed.

Lemma split_length sep s :
  (2 ≤ length (Py.split sep s))%nat ↔ Py.occurs sep s = true.
Proof.
  unfold Py.split. induction s as [| c s IH]; simpl.
  - split; [lia | done].
  - destruct (Py.split_aux sep s) as [tok toks].
    destruct (Ascii.eqb c sep); simpl in *.
    + split; [done | lia].
    + done.
Qed.

(** [split] undoes [join] on tokens that are free of the separator. *)
Lemma split_join sep t toks :
  Forall (λ t, Py.occurs sep t = false) (t :: toks) →
  Py.split sep (Py.join (String sep EmptyString) (t :: toks)) = t :: toks.
Proof.
  revert t. induction toks as [| t' toks IH]; intros t Hall.
  - apply split_token. by inversion Hall.
  - inversion Hall as [| ? ? Ht Hrest]; subst.
    change (Py.join (String sep EmptyString) (t :: t' :: toks))
      with (t +:+ String sep (Py.join (String sep EmptyString) (t' :: toks))).
    by rewrite split_cons, IH.
Qed.

(** The tokens of [split] are free of the separator. *)
Lemma split_tokens sep s :
  Forall (λ t, Py.occurs sep t = false) (Py.split sep s).
Proof.
  unfold Py.split. induction s as [| c s IH]; simpl.
  - by repeat constructor.
  - destruct (Py.split_aux sep s) as [tok toks].
    inversion IH as [| ? ? Htok Htoks]; subst.
    destruct (Ascii.eqb c sep) eqn:Hc.
    + by repeat constructor.
    + constructor; [simpl; by rewrite Hc | done].
Qed.

(** [join] undoes [split], on every string. *)
Lemma join_split sep s :
  Py.join (String sep EmptyString) (Py.split sep s) = s.
Proof.
  unfold Py.split. induction s as [| c s IH]; simpl; [done |].
  destruct (Py.split_aux sep s) as [tok toks].
  destruct (Ascii.eqb_spec c sep) as [-> | Hc].
  - change (String sep (Py.join (String sep EmptyString) (tok :: toks)) = String sep s).
    by rewrite IH.
  - destruct toks as [| t' toks]; simpl in *; by rewrite <- IH.
Qed.

Lemma endswith_unfold s p :
  Py.endswith s p
  = String.eqb s p
    || match s with
       | EmptyString => false
       | String _ s' => Py.endswith s' p
       end.
Proof. by destruct s. Qed.

Lemma endswith_spec s p :
  Py.endswith s p = true ↔ ∃ q, s = q +:+ p.
Proof.
  induction s as [| c s IH]; rewrite endswith_unfold.
  - rewrite orb_false_r, String.eqb_eq. split.
    + intros <-. by exists EmptyString.
    + intros ([| x q] & Hq); [done | discriminate].
  - rewrite orb_true_iff, String.eqb_eq, IH. split.
    + intros [<- | (q & ->)]; [by exists EmptyString | by exists (String c q)].
    + intros ([| x q] & Hq); simpl in Hq.
      * by left.
      * injection Hq as -> ->. right. by exists q.
Qed.

Lemma startswith_spec s p :
  Py.startswith s p = true ↔ ∃ q, s = p +:+ q.
Proof.
  unfold Py.startswith. revert s. induction p as [| c p IH]; intros s; simpl.
  - split; [by exists s | by destruct s].
  - destruct s as [| c' s]; simpl.
    + split; [done | intros (q & Hq); discriminate].
    + destruct (ascii_dec c c') as [-> | Hne].
      * rewrite IH. split; intros (q & Hq); exists q; [by rewrite Hq |].
        by injection Hq.
      * split; [done |]. intros (q & Hq). by injection Hq as <- _.
Qed.

(** *** [int] reads back what [str] prints *)

Lemma digits_from_pos (d : Decimal.uint) (p : positive) :
  Py.digits_from (Z.pos p) (NilEmpty.string_of_uint d)
  = Some (Z.pos (Pos.of_uint_acc d p)).
Proof.
  revert p. induction d as [| d IH | d IH | d IH | d IH | d IH | d IH | d IH | d IH | d IH | d IH];
    intros p; [done | ..];
    cbn [NilEmpty.string_of_uint Py.digits_from Pos.of_uint_acc];
    change (Py.is_digit _) with true; cbv iota; rewrite <- IH; f_equal;
    change (nat_of_ascii _ - 48)%nat with 0%nat ||
    change (nat_of_ascii _ - 48)%nat with 1%nat ||
    change (nat_of_ascii _ - 48)%nat with 2%nat ||
    change (nat_of_ascii _ - 48)%nat with 3%nat ||
    change (nat_of_ascii _ - 48)%nat with 4%nat ||
    change (nat_of_ascii _ - 48)%nat with 5%nat ||
    change (nat_of_ascii _ - 48)%nat with 6%nat ||
    change (nat_of_ascii _ - 48)%nat with 7%nat ||
    change (nat_of_ascii _ - 48)%nat with 8%nat ||
    change (nat_of_ascii _ - 48)%nat with 9%nat; lia.
Qed.

Lemma digits_from_zero (d : Decimal.uint) :
  Py.digits_from 0 (NilEmpty.string_of_uint d) = Some (Z.of_uint d).
Proof.
  unfold Z.of_uint.
  induction d as [| d IH | d IH | d IH | d IH | d IH | d IH | d IH | d IH | d IH | d IH];
    [done | exact IH | ..];
    cbn [NilEmpty.string_of_uint Py.digits_from Pos.of_uint];
    change (Py.is_digit _) with true; cbv iota;
    exact (digits_from_pos d _).
Qed.

Lemma occurs_digits (d : Decimal.uint) :
  Py.occurs "_" (NilEmpty.string_of_uint d) = false.
Proof. induction d; simpl; done. Qed.

Lemma str_token (n : Z) : (0 ≤ n)%Z → Py.occurs "_" (Py.str n) = false.
Proof.
  intros Hn. unfold Py.str. destruct n as [| p | p]; [done | | lia].
  simpl. destruct (Pos.to_uint p); [done | ..]; apply occurs_digits.
Qed.

Lemma int_str (n : Z) : (0 ≤ n)%Z → Py.int (Py.str n) = Ok n.
Proof.
  intros Hn. unfold Py.str. destruct n as [| p | p]; [done | | lia].
  rewrite <- (DecimalZ.of_to (Z.pos p)) at 2.
  cbn [Z.to_int NilZero.string_of_int Z.of_int].
  pose proof (DecimalPos.Unsigned.to_uint_nonnil p) as Hnil.
  pose proof (digits_from_zero (Pos.to_uint p)) as Hdigits.
  unfold NilZero.string_of_uint.
  destruct (Pos.to_uint p) as [| d | d | d | d | d | d | d | d | d | d];
    [done | ..]; unfold Py.int;
    cbn [NilEmpty.string_of_uint Py.lstrip] in *;
    change (Py.is_space _) with false; cbv iota;
    unfold Py.unsigned_literal; change (Py.is_digit _) with true; cbv iota;
    by rewrite Hdigits.
Qed.

End PyFacts.

(** ** Extension: the derived names *)

Example ex_pure_name : pure_name (descriptor "VK_EXT_robustness2" "rb2") = Ok "robustness2".
Proof. reflexivity. Qed.

Example ex_name_with_vendor :
  name_with_vendor (descriptor "VK_EXT_robustness2" "rb2") = Ok "EXT_robustness2".
Proof. reflexivity. Qed.

Example ex_name_in_camel_case :
  name_in_camel_case (descriptor "VK_EXT_transform_feedback" "tf") = Ok "TransformFeedback".
Proof. reflexivity. Qed.

Example ex_extension_name :
  extension_name (descriptor "NS_VENDOR_robustness2" "rb2")
  = Ok "NS_VENDOR_ROBUSTNESS2_EXTENSION_NAME".
Proof. reflexivity. Qed.

Example ex_field : field (descriptor "VK_EXT_robustness2" "rb2") "feat" = Ok "rb2_feat".
Proof. reflexivity. Qed.

Example ex_stype :
  stype (descriptor "VK_EXT_transform_feedback" "tf") "FEATURES"
  = Ok "VK_STRUCTURE_TYPE_PHYSICAL_DEVICE_TRANSFORM_FEEDBACK_FEATURES_EXT".
Proof. reflexivity. Qed.

Example ex_physical_device_struct :
  physical_device_struct (descriptor "VK_EXT_robustness2" "rb2") "Features"
  = Ok "VkPhysicalDeviceRobustness2FeaturesEXT".
Proof. reflexivity. Qed.

Example ex_physical_device_struct_dup :
  physical_device_struct (descriptor "VK_KHR_shader_float16_int8_features" "f16") "Features"
  = Ok "VkPhysicalDeviceShaderFloat16Int8FeaturesKHR".
Proof. reflexivity. Qed.

Lemma vendor_second_token (self : Extension) (ns vnd : string) (rest : list string) :
  Forall token (ns :: vnd :: rest) →
  name self = Py.join "_" (ns :: vnd :: rest) →
  vendor self = Ok vnd.
Proof.
  intros Htoks Hname. unfold vendor.
  by rewrite Hname, (PyFacts.split_join "_" ns (vnd :: rest) Htoks).
Qed.

(** A string holds an underscore exactly when it is the join of at least
    two tokens. *)
Lemma has_underscore_tokens (s : string) :
  has_underscore s
  ↔ ∃ ns vnd rest, Forall token (ns :: vnd :: rest) ∧ s = Py.join "_" (ns :: vnd :: rest).
Proof.
  unfold has_underscore. rewrite <- (PyFacts.occurs_spec "_"), <- PyFacts.split_length.
  split.
  - intros Hlen. pose proof (PyFacts.split_tokens "_" s) as Htoks.
    pose proof (PyFacts.join_split "_" s) as Hjoin.
    destruct (Py.split "_" s) as [| ns [| vnd rest]]; simpl in Hlen; [lia | lia |].
    by exists ns, vnd, rest.
  - intros (ns & vnd & rest & Htoks & ->).
    rewrite (PyFacts.split_join "_" ns (vnd :: rest) Htoks). simpl. lia.
Qed.

Lemma vendor_returns_iff (self : Extension) :
  returns (vendor self) ↔ has_underscore (name self).
Proof.
  unfold has_underscore, vendor, Py.index, returns.
  rewrite <- (PyFacts.occurs_spec "_"), <- PyFacts.split_length.
  destruct (Py.split "_" (name self)) as [| t [| t' toks]]; simpl.
  - split; [intros [? ?]; discriminate | lia].
  - split; [intros [? ?]; discriminate | lia].
  - split; [lia | eauto].
Qed.

Lemma vendor_raises (self : Extension) :
  ¬ has_underscore (name self) → vendor self = Raise IndexError.
Proof.
  rewrite <- vendor_returns_iff. unfold returns, vendor, Py.index.
  destruct (_ !! _); [| done]. intros []. eauto.
Qed.

(** C7: when the name is made of at least two underscore-free tokens joined
    by underscores, [pure_name()] is the tokens after the first two joined
    again by underscores, and [name_in_camel_case()] is the title-cased
    form of each of these tokens, concatenated with nothing in between. *)
Theorem pure_name_drops_two_tokens (self : Extension) (ns vnd : string) (rest : list string) :
  Forall token (ns :: vnd :: rest) →
  name self = Py.join "_" (ns :: vnd :: rest) →
  pure_name self = Ok (Py.join "_" rest)
  ∧ name_in_camel_case self = Ok (Py.join "" (Py.title <$> rest)).
Proof.
  intros Htoks Hname. unfold pure_name, name_in_camel_case.
  by rewrite Hname, (PyFacts.split_join "_" ns (vnd :: rest) Htoks).
Qed.

Lemma pure_name_drops_two_tokens_witness :
  (pure_name (descriptor "NS_VENDOR_foo_bar" "") = Ok "foo_bar"
   ∧ name_in_camel_case (descriptor "NS_VENDOR_foo_bar" "") = Ok "FooBar")
  ∧ (pure_name (descriptor "NS_VENDOR_robustness2" "") = Ok "robustness2"
     ∧ name_in_camel_case (descriptor "NS_VENDOR_robustness2" "") = Ok "Robustness2")
  ∧ (pure_name (descriptor "NS_VENDOR" "") = Ok ""
     ∧ name_in_camel_case (descriptor "NS_VENDOR" "") = Ok "").
Proof.
  split; [| split].
  - apply (pure_name_drops_two_tokens (descriptor "NS_VENDOR_foo_bar" "")
             "NS" "VENDOR" ["foo"; "bar"]); [by repeat constructor | reflexivity].
  - apply (pure_name_drops_two_tokens (descriptor "NS_VENDOR_robustness2" "")
             "NS" "VENDOR" ["robustness2"]); [by repeat constructor | reflexivity].
  - apply (pure_name_drops_two_tokens (descriptor "NS_VENDOR" "")
             "NS" "VENDOR" []); [by repeat constructor | reflexivity].
Defined.

(** C6: [physical_device_struct(struct)] is the text VkPhysicalDevice, then
    the camel-cased name, then [struct], then the vendor tag returned by
    [vendor()]; [struct] is left out exactly when the camel-cased name ends
    with it. *)
Theorem physical_device_struct_parts (self : Extension) (struct : string) :
  ∃ camel,
    name_in_camel_case self = Ok camel
    ∧ ((∃ q, camel = q +:+ struct) →
       physical_device_struct self struct
       = (v <- vendor self ;; Ok ("VkPhysicalDevice" +:+ camel +:+ v)))
    ∧ (¬ (∃ q, camel = q +:+ struct) →
       physical_device_struct self struct
       = (v <- vendor self ;; Ok ("VkPhysicalDevice" +:+ camel +:+ struct +:+ v))).
Proof.
  eexists. split; [reflexivity |].
  unfold physical_device_struct, name_in_camel_case. simpl.
  split; intros Hend.
  - apply PyFacts.endswith_spec in Hend. by rewrite Hend.
  - destruct (Py.endswith _ struct) eqn:E; [| done].
    apply PyFacts.endswith_spec in E. contradiction.
Qed.

Lemma physical_device_struct_parts_witness :
  physical_device_struct (descriptor "VK_EXT_robustness2" "rb2") "Features"
  = Ok "VkPhysicalDeviceRobustness2FeaturesEXT"
  ∧ physical_device_struct (descriptor "VK_KHR_vulkan_memory_model_Features" "mm") "Features"
    = Ok "VkPhysicalDeviceVulkanMemoryModelFeaturesKHR".
Proof.
  split.
  - destruct (physical_device_struct_parts (descriptor "VK_EXT_robustness2" "rb2") "Features")
      as (camel & Hcamel & _ & Hkeep).
    injection Hcamel as <-. rewrite Hkeep; [reflexivity |].
    rewrite <- PyFacts.endswith_spec. discriminate.
  - destruct (physical_device_struct_parts
                (descriptor "VK_KHR_vulkan_memory_model_Features" "mm") "Features")
      as (camel & Hcamel & Hdrop & _).
    injection Hcamel as <-. rewrite Hdrop; [reflexivity |].
    by exists "VulkanMemoryModel".
Defined.

Lemma stype_vendor (self : Extension) (struct : string) :
  stype self struct
  = (v <- vendor self ;;
     Ok ("VK_STRUCTURE_TYPE_PHYSICAL_DEVICE_"
         +:+ Py.upper (Py.join "_" (Py.slice_from 2 (Py.split "_" (name self))))
         +:+ "_" +:+ struct +:+ "_" +:+ v)).
Proof. reflexivity. Qed.

Lemma bind_returns {A B : Type} (m : Result A) (k : A → Result B) :
  (∀ a, returns (k a)) → (returns (bind m k) ↔ returns m).
Proof.
  intros Hk. destruct m as [a | e]; simpl.
  - split; [by exists a | intros _; apply Hk].
  - split; intros [? ?]; discriminate.
Qed.

(** The claim that no derivation raises fails on a name of one token:
    [split] yields a single token and [vendor()] indexes the second. *)
Lemma vendor_raises_on_single_token :
  vendor (descriptor "zink" "") = Raise IndexError
  ∧ stype (descriptor "zink" "") "FEATURES" = Raise IndexError
  ∧ physical_device_struct (descriptor "zink" "") "Features" = Raise IndexError
  ∧ ¬ (returns (pure_name (descriptor "zink" ""))
       ∧ returns (name_with_vendor (descriptor "zink" ""))
       ∧ returns (name_in_camel_case (descriptor "zink" ""))
       ∧ returns (vendor (descriptor "zink" ""))
       ∧ returns (stype (descriptor "zink" "") "FEATURES")
       ∧ returns (physical_device_struct (descriptor "zink" "") "Features")).
Proof.
  repeat split. intros (_ & _ & _ & [v Hv] & _). discriminate.
Qed.

(** C3, amended: [pure_name], [name_with_vendor] and [name_in_camel_case]
    return a string for every name; [vendor], [stype] and
    [physical_device_struct] return a string exactly when the name holds an
    underscore, and raise [IndexError] when it holds none. *)
Theorem derivations_return (self : Extension) :
  returns (pure_name self)
  ∧ returns (name_with_vendor self)
  ∧ returns (name_in_camel_case self)
  ∧ (returns (vendor self) ↔ has_underscore (name self))
  ∧ (∀ struct, returns (stype self struct) ↔ has_underscore (name self))
  ∧ (∀ struct, returns (physical_device_struct self struct) ↔ has_underscore (name self))
  ∧ (¬ has_underscore (name self) →
     vendor self = Raise IndexError
     ∧ (∀ struct, stype self struct = Raise IndexError)
     ∧ (∀ struct, physical_device_struct self struct = Raise IndexError)).
Proof.
  split; [by eexists |]. split; [by eexists |]. split; [by eexists |].
  split; [apply vendor_returns_iff |].
  split; [| split].
  - intros struct. rewrite stype_vendor, <- vendor_returns_iff.
    apply bind_returns. intros v. by eexists.
  - intros struct. rewrite <- vendor_returns_iff.
    unfold physical_device_struct, name_in_camel_case. simpl.
    apply bind_returns. intros v. by eexists.
  - intros Hnone. apply vendor_raises in Hnone. split; [done |].
    split; intros struct.
    + by rewrite stype_vendor, Hnone.
    + unfold physical_device_struct, name_in_camel_case. simpl. by rewrite Hnone.
Qed.

Lemma derivations_return_witness :
  returns (vendor (descriptor "VK_EXT" ""))
  ∧ vendor (descriptor "VK" "") = Raise IndexError.
Proof.
  split.
  - apply (derivations_return (descriptor "VK_EXT" "")). by exists "VK", "EXT".
  - apply (derivations_return (descriptor "VK" "")).
    intros Hus. apply (derivations_return (descriptor "VK" "")) in Hus.
    destruct Hus as [v Hv]. discriminate.
Defined.

(** ** ExtensionRegistry: the entry built for one extension *)

Lemma truthy_named o : Py.truthy o = true ↔ named o.
Proof.
  unfold named. destruct o as [s |]; simpl.
  - rewrite negb_true_iff, String.eqb_neq. split; [by exists s | by intros (? & [= <-] & ?)].
  - split; [done | by intros (? & ? & ?)].
Qed.

Lemma loop_commands_filter cmds acc :
  loop_commands cmds acc
  = acc ++ filter (λ n, Py.truthy n) ((λ cmd, Element_get cmd "name") <$> cmds).
Proof.
  unfold loop_commands. revert acc.
  induction cmds as [| cmd cmds IH]; intros acc; simpl.
  - by rewrite app_nil_r.
  - cbn [foldl fmap list_fmap]. rewrite IH, filter_cons.
    destruct (Py.truthy (Element_get cmd "name")) eqn:E.
    + rewrite decide_True by done. by rewrite <- app_assoc.
    + by rewrite decide_False by (by intros []).
Qed.

Lemma loop_constants_filter enums acc :
  loop_constants enums acc
  = acc ++ ((λ enum, Element_get enum "name")
              <$> filter (λ enum, ¬ Py.truthy (Element_get enum "extends")) enums).
Proof.
  unfold loop_constants. revert acc.
  induction enums as [| enum enums IH]; intros acc; simpl.
  - by rewrite app_nil_r.
  - cbn [foldl]. rewrite IH, filter_cons.
    destruct (Py.truthy (Element_get enum "extends")) eqn:E; cbn [negb].
    + by rewrite decide_False by (by intros []).
    + rewrite decide_True by (by intros []). by rewrite fmap_cons, <- app_assoc.
Qed.

(** What a successful [build_entry] returns. *)
Lemma build_entry_inv (ext : Element) (name : string) (entry : ExtensionRegistryEntry) :
  build_entry ext = Ok (name, entry) →
  attrib ext !! "name" = Some name
  ∧ attrib ext !! "type" = Some (ext_type entry)
  ∧ parse_promotedto (Element_get ext "promotedto") = Ok (promoted_in entry)
  ∧ commands entry = Some (loop_commands (findall ext "require/command") [])
  ∧ constants entry = Some (loop_constants (findall ext "require/enum") [])
  ∧ loop_types (findall ext "require/type") (None, None)
    = Ok (features_struct entry, properties_struct entry).
Proof.
  unfold build_entry, attrib_getitem. simpl.
  destruct (attrib ext !! "name") as [n |]; [| done]. simpl.
  destruct (attrib ext !! "type") as [ty |]; [| done]. simpl.
  destruct (parse_promotedto _) as [p | e]; [| done]. simpl.
  destruct (loop_types _ _) as [[fs ps] | e]; [| done]. simpl.
  by intros [= <- <-].
Qed.

(** When [build_entry] returns: the two mandatory attributes are there,
    [promotedto] parses and every required type has a name. *)
Lemma build_entry_ok (ext : Element) (name ty : string) (promoted : option (Z * Z))
    (structs : option string * option string) :
  attrib ext !! "name" = Some name →
  attrib ext !! "type" = Some ty →
  parse_promotedto (Element_get ext "promotedto") = Ok promoted →
  loop_types (findall ext "require/type") (None, None) = Ok structs →
  build_entry ext
  = Ok (name,
        {| ext_type := ty; promoted_in := promoted;
           commands := Some (loop_commands (findall ext "require/command") []);
           constants := Some (loop_constants (findall ext "require/enum") []);
           features_struct := fst structs; properties_struct := snd structs |}).
Proof.
  intros Hname Hty Hprom Htypes. unfold build_entry, attrib_getitem. simpl.
  by rewrite Hname, Hty, Hprom, Htypes.
Qed.

Lemma loop_types_returns (tys : list Element) (structs : option string * option string) :
  Forall (λ ty, is_Some (Element_get ty "name")) tys ↔ returns (loop_types tys structs).
Proof.
  revert structs. induction tys as [| ty tys IH]; intros structs; simpl.
  - split; [by eexists | constructor].
  - rewrite Forall_cons. destruct (Element_get ty "name") as [tn |]; simpl.
    + destruct (Re.matches features_re tn); [| destruct (Re.matches properties_re tn)];
        rewrite <- IH; split; (intros [_ ?] || intros ?); try done; by split.
    + split; [by intros [[? ?] _] | by intros [? ?]].
Qed.

Example ex_build_entry :
  build_entry ext_example
  = Ok ("VK_EXT_example",
        {| ext_type := "device"; promoted_in := None;
           commands := Some [Some "vkCmdFirstEXT"; Some "vkCmdSecondEXT"];
           constants := Some [Some "VK_EXT_EXAMPLE_EXTENSION_NAME"];
           features_struct := Some "VkPhysicalDeviceExampleFeaturesEXT";
           properties_struct := None |}).
Proof. vm_compute. reflexivity. Qed.

Example ex_is_features_struct :
  is_features_struct (Some "VkPhysicalDeviceFooFeaturesEXT") = Ok true
  ∧ is_properties_struct (Some "VkPhysicalDeviceFooFeaturesEXT") = Ok false
  ∧ is_features_struct (Some "VkDeviceFooFeaturesEXT") = Ok false
  ∧ is_features_struct None = Raise TypeError.
Proof. vm_compute. auto. Qed.

(** C10: in the entry built for an extension, [commands] holds the names
    of the required commands that have a non-empty name, in document order,
    so never [None]; [constants] holds what [get("name")] returned for each
    required enum without [extends], so it holds [None] for such an enum
    that has no name, and there is a document for which it does. *)
Theorem commands_named_constants_as_found :
  (∀ (ext : Element) (name : string) (entry : ExtensionRegistryEntry),
     build_entry ext = Ok (name, entry) →
     ∃ cmds consts,
       commands entry = Some cmds
       ∧ constants entry = Some consts
       ∧ cmds = filter (λ n, Py.truthy n)
                  ((λ cmd, Element_get cmd "name") <$> findall ext "require/command")
       ∧ Forall named cmds
       ∧ (∀ enum, enum ∈ findall ext "require/enum" →
                  Element_get enum "extends" = None →
                  Element_get enum "name" ∈ consts))
  ∧ (∃ (ext : Element) (name : string) (entry : ExtensionRegistryEntry),
       build_entry ext = Ok (name, entry)
       ∧ commands entry = Some [Some "vkCmdNamedEXT"]
       ∧ constants entry = Some [None]).
Proof.
  split.
  - intros ext name entry (_ & _ & _ & Hcmds & Hconsts & _)%build_entry_inv.
    rewrite loop_commands_filter in Hcmds. rewrite loop_constants_filter in Hconsts.
    eexists _, _. split; [exact Hcmds |]. split; [exact Hconsts |].
    split; [done |]. split.
    + apply Forall_forall. intros c [Hc _]%list_elem_of_filter.
      apply truthy_named. by destruct (Py.truthy c).
    + intros enum Hin Hext. simpl. apply list_elem_of_fmap.
      exists enum. split; [done |]. apply list_elem_of_filter.
      split; [| done]. rewrite Hext. by intros [].
  - exists ext_unnamed. eexists _, _. split; [by vm_compute |]. done.
Qed.

Lemma commands_named_constants_as_found_witness :
  ∃ cmds consts : list (option string),
    cmds = [Some "vkCmdNamedEXT"] ∧ consts = [None]
    ∧ Forall named cmds ∧ None ∈ consts.
Proof.
  destruct (proj1 commands_named_constants_as_found ext_unnamed "VK_EXT_unnamed"
              {| ext_type := "device"; promoted_in := None;
                 commands := Some [Some "vkCmdNamedEXT"]; constants := Some [None];
                 features_struct := None; properties_struct := None |})
    as (cmds & consts & [= <-] & [= <-] & _ & Hnamed & Hkeep).
  { by vm_compute. }
  exists [Some "vkCmdNamedEXT"], [None].
  split; [done |]. split; [done |]. split; [exact Hnamed |].
  apply (Hkeep (elem "enum" [] [])); [| done].
  vm_compute. apply list_elem_of_here.
Defined.

(** ** ExtensionRegistry: construction *)

Example ex_doc_one :
  fst (ExtensionRegistry_init R1 doc_one ∅) = Ok ()
  ∧ in_registry R1 (snd (ExtensionRegistry_init R1 doc_one ∅)) "VK_EXT_one" = true
  ∧ in_registry R1 (snd (ExtensionRegistry_init R1 doc_one ∅)) "VK_EXT_two" = false.
Proof. vm_compute. auto. Qed.

Lemma init_loop_disabled ext exts (registry : Registry) :
  Element_get ext "supported" = Some "disabled" →
  init_loop (ext :: exts) registry = init_loop exts registry.
Proof. intros Hdis. simpl. by rewrite bool_decide_eq_true_2. Qed.

Lemma init_loop_enabled ext exts (registry : Registry) name entry :
  Element_get ext "supported" ≠ Some "disabled" →
  build_entry ext = Ok (name, entry) →
  init_loop (ext :: exts) registry = init_loop exts (<[name := entry]> registry).
Proof. intros Hen Hbuild. simpl. by rewrite bool_decide_eq_false_2, Hbuild. Qed.

Lemma in_registry_lookup self (registry : Registry) ext_name :
  in_registry self registry ext_name = true ↔ is_Some (registry !! ext_name).
Proof. unfold in_registry, self_registry. by rewrite bool_decide_eq_true, elem_of_dom. Qed.

Lemma get_registry_entry_lookup self (registry : Registry) ext_name :
  get_registry_entry self registry ext_name = Ok (registry !! ext_name).
Proof.
  unfold get_registry_entry, self_registry.
  destruct (registry !! ext_name) as [entry |] eqn:E.
  - by rewrite (proj2 (in_registry_lookup self registry ext_name)).
  - destruct (in_registry self registry ext_name) eqn:Hin; [| done].
    apply in_registry_lookup in Hin. rewrite E in Hin. by destruct Hin.
Qed.

Section one_extension.

Variables (vkxml ext : Element) (ext_name ty : string) (promoted : option (Z * Z)).
Variables (cmd1 cmd2 : Element) (cmd_name1 cmd_name2 : string).
Variables (enum_plain enum_extending : Element).
Variables (type_elem : Element) (type_name : string).

Hypothesis one_extension : findall vkxml "extensions/extension" = [ext].
Hypothesis not_disabled : Element_get ext "supported" ≠ Some "disabled".
Hypothesis ext_has_name : attrib ext !! "name" = Some ext_name.
Hypothesis ext_has_type : attrib ext !! "type" = Some ty.
Hypothesis promotedto_parses :
  parse_promotedto (Element_get ext "promotedto") = Ok promoted.
Hypothesis two_commands : findall ext "require/command" = [cmd1; cmd2].
Hypothesis cmd1_named : Element_get cmd1 "name" = Some cmd_name1 ∧ cmd_name1 ≠ "".
Hypothesis cmd2_named : Element_get cmd2 "name" = Some cmd_name2 ∧ cmd_name2 ≠ "".
Hypothesis two_enums :
  findall ext "require/enum" = [enum_plain; enum_extending]
  ∨ findall ext "require/enum" = [enum_extending; enum_plain].
Hypothesis no_extends : Element_get enum_plain "extends" = None.
Hypothesis extends : named (Element_get enum_extending "extends").
Hypothesis one_type : findall ext "require/type" = [type_elem].
Hypothesis type_named : Element_get type_elem "name" = Some type_name.
Hypothesis type_is_features : is_features_struct (Some type_name) = Ok true.

(** C5, amended: for a document whose one extension is enabled, has its
    [name] and [type] attributes and a [promotedto] that
    [parse_promotedto] accepts, and requires two commands each with a
    non-empty name, an enum without [extends], an enum with a non-empty
    [extends] and a type named as a features struct, the constructor
    returns and the entry it stores under the name of the extension has
    the two command names in document order as [commands], the name of
    the enum without [extends] alone as [constants], the name of the type
    as [features_struct] and no [properties_struct]. *)
Theorem one_extension_entry (self : ExtensionRegistry) (registry : Registry) :
  ∃ entry,
    ExtensionRegistry_init self vkxml registry = (Ok (), <[ext_name := entry]> registry)
    ∧ in_registry self (<[ext_name := entry]> registry) ext_name = true
    ∧ get_registry_entry self (<[ext_name := entry]> registry) ext_name = Ok (Some entry)
    ∧ commands entry = Some [Some cmd_name1; Some cmd_name2]
    ∧ constants entry = Some [Element_get enum_plain "name"]
    ∧ features_struct entry = Some type_name
    ∧ properties_struct entry = None.
Proof.
  destruct cmd1_named as [Hc1 Hne1], cmd2_named as [Hc2 Hne2].
  assert (loop_types (findall ext "require/type") (None, None) = Ok (Some type_name, None))
    as Htypes.
  { rewrite one_type. cbn [loop_types]. by rewrite type_named, type_is_features. }
  pose proof (build_entry_ok ext ext_name ty promoted _
                ext_has_name ext_has_type promotedto_parses Htypes) as Hbuild.
  eexists. split.
  { unfold ExtensionRegistry_init, self_registry. rewrite one_extension.
    by rewrite (init_loop_enabled _ _ _ _ _ not_disabled Hbuild). }
  split; [apply in_registry_lookup; by rewrite lookup_insert_eq |].
  split; [by rewrite get_registry_entry_lookup, lookup_insert_eq |].
  split; [| split; [| done]]; cbn [commands constants].
  - rewrite loop_commands_filter, two_commands. simpl. rewrite Hc1, Hc2.
    apply String.eqb_neq in Hne1, Hne2.
    rewrite !filter_cons, filter_nil. simpl. by rewrite Hne1, Hne2.
  - rewrite loop_constants_filter.
    apply truthy_named in extends.
    destruct two_enums as [-> | ->]; rewrite !filter_cons, filter_nil;
      rewrite no_extends, extends; done.
Qed.

End one_extension.

Lemma one_extension_entry_witness :
  ∃ entry,
    ExtensionRegistry_init R1 (registry_of [ext_example]) ∅
    = (Ok (), <["VK_EXT_example" := entry]> ∅)
    ∧ in_registry R1 (<["VK_EXT_example" := entry]> ∅) "VK_EXT_example" = true
    ∧ get_registry_entry R1 (<["VK_EXT_example" := entry]> ∅) "VK_EXT_example"
      = Ok (Some entry)
    ∧ commands entry = Some [Some "vkCmdFirstEXT"; Some "vkCmdSecondEXT"]
    ∧ constants entry = Some [Some "VK_EXT_EXAMPLE_EXTENSION_NAME"]
    ∧ features_struct entry = Some "VkPhysicalDeviceExampleFeaturesEXT"
    ∧ properties_struct entry = None.
Proof.
  apply (one_extension_entry (registry_of [ext_example]) ext_example
           "VK_EXT_example" "device" None
           (elem "command" [("name", "vkCmdFirstEXT")] [])
           (elem "command" [("name", "vkCmdSecondEXT")] [])
           "vkCmdFirstEXT" "vkCmdSecondEXT"
           (elem "enum" [("name", "VK_EXT_EXAMPLE_EXTENSION_NAME")] [])
           (elem "enum" [("name", "VK_EXAMPLE_BIT_EXT"); ("extends", "VkExampleFlagBits")] [])
           (elem "type" [("name", "VkPhysicalDeviceExampleFeaturesEXT")] [])
           "VkPhysicalDeviceExampleFeaturesEXT").
  - by vm_compute.
  - by vm_compute.
  - by vm_compute.
  - by vm_compute.
  - by vm_compute.
  - by vm_compute.
  - split; [by vm_compute | discriminate].
  - split; [by vm_compute | discriminate].
  - left. by vm_compute.
  - by vm_compute.
  - exists "VkExampleFlagBits". split; [by vm_compute | discriminate].
  - by vm_compute.
  - by vm_compute.
  - by vm_compute.
Defined.

(** As first stated, without the conditions on the names and on
    [extends], the property fails.  Both documents hold one enabled
    extension with two required commands, an enum without [extends], an
    enum with an [extends] attribute and a type named as a features
    struct.  In the first a command has no name and is left out by the
    guard on [cmd_name]: [commands] has one element.  In the second
    [extends] is empty, which the test on [enum_extends] takes as absent:
    [constants] has two elements. *)
Lemma unnamed_command_and_empty_extends :
  length (findall ext_nameless_command "require/command") = 2%nat
  ∧ get_registry_entry R1
      (snd (ExtensionRegistry_init R1 (registry_of [ext_nameless_command]) ∅))
      "VK_EXT_example"
    = Ok (Some {| ext_type := "device"; promoted_in := None;
                  commands := Some [Some "vkCmdSecondEXT"];
                  constants := Some [Some "VK_EXT_EXAMPLE_EXTENSION_NAME"];
                  features_struct := Some "VkPhysicalDeviceExampleFeaturesEXT";
                  properties_struct := None |})
  ∧ (λ enum, bool_decide (is_Some (Element_get enum "extends")))
      <$> findall ext_empty_extends "require/enum"
    = [false; true]
  ∧ get_registry_entry R1
      (snd (ExtensionRegistry_init R1 (registry_of [ext_empty_extends]) ∅))
      "VK_EXT_example"
    = Ok (Some {| ext_type := "device"; promoted_in := None;
                  commands := Some [Some "vkCmdFirstEXT"; Some "vkCmdSecondEXT"];
                  constants := Some [Some "VK_EXT_EXAMPLE_EXTENSION_NAME";
                                     Some "VK_EXAMPLE_BIT_EXT"];
                  features_struct := Some "VkPhysicalDeviceExampleFeaturesEXT";
                  properties_struct := None |}).
Proof. vm_compute. repeat split. Qed.

(** A key that no enabled extension of the list carries is left as it
    was, whether or not the loop runs to its end. *)
Lemma init_loop_frame (exts : list Element) (registry : Registry) (n : string) :
  Forall (λ ext, Element_get ext "supported" ≠ Some "disabled" →
                 attrib ext !! "name" ≠ Some n) exts →
  snd (init_loop exts registry) !! n = registry !! n.
Proof.
  revert registry. induction exts as [| ext exts IH]; intros registry Hall; [done |].
  inversion Hall as [| ? ? Hext Hexts]; subst. simpl.
  case_bool_decide as Hdis; [by apply IH |].
  destruct (build_entry ext) as [[name entry] | e] eqn:Hbuild; [| done].
  rewrite IH by done. apply lookup_insert_ne.
  apply build_entry_inv in Hbuild as [Hname _].
  intros ->. by apply Hext.
Qed.

(** The loop only adds keys. *)
Lemma init_loop_mono (exts : list Element) (registry : Registry) (n : string) :
  is_Some (registry !! n) → is_Some (snd (init_loop exts registry) !! n).
Proof.
  revert registry. induction exts as [| ext exts IH]; intros registry Hn; [done |].
  simpl. case_bool_decide; [by apply IH |].
  destruct (build_entry ext) as [[name entry] | e]; [| done].
  apply IH. rewrite lookup_insert. case_decide; [by eexists | done].
Qed.

(** When the loop runs to its end, every enabled extension of the list
    has its name among the keys. *)
Lemma init_loop_registers (exts : list Element) (registry : Registry) (ext : Element)
    (n : string) :
  fst (init_loop exts registry) = Ok () →
  ext ∈ exts →
  Element_get ext "supported" ≠ Some "disabled" →
  attrib ext !! "name" = Some n →
  is_Some (snd (init_loop exts registry) !! n).
Proof.
  revert registry. induction exts as [| x exts IH]; intros registry Hok Hin Hen Hname.
  - by apply elem_of_nil in Hin.
  - simpl in *. apply elem_of_cons in Hin as [<- | Hin].
    + rewrite bool_decide_eq_false_2 in * by done.
      destruct (build_entry ext) as [[name entry] | e] eqn:Hbuild; [| done].
      apply init_loop_mono.
      apply build_entry_inv in Hbuild as [Hname' _].
      rewrite Hname in Hname'. injection Hname' as <-.
      rewrite lookup_insert_eq. by eexists.
    + case_bool_decide; [by apply IH |].
      destruct (build_entry x) as [[name entry] | e]; [| done].
      by apply IH.
Qed.

(** On the first construction, when the dictionary of the class is still
    empty, a name that only disabled extensions of the document carry is
    not registered. *)
Lemma disabled_absent_on_first_construction (self : ExtensionRegistry) (vkxml : Element)
    (n : string) :
  Forall (λ ext, Element_get ext "supported" ≠ Some "disabled" →
                 attrib ext !! "name" ≠ Some n)
         (findall vkxml "extensions/extension") →
  in_registry self (snd (ExtensionRegistry_init self vkxml ∅)) n = false
  ∧ get_registry_entry self (snd (ExtensionRegistry_init self vkxml ∅)) n = Ok None.
Proof.
  intros Hall. unfold ExtensionRegistry_init, self_registry.
  pose proof (init_loop_frame _ ∅ n Hall) as Hframe.
  rewrite lookup_empty in Hframe.
  rewrite get_registry_entry_lookup, Hframe. split; [| done].
  destruct (in_registry self _ n) eqn:Hin; [| done].
  apply in_registry_lookup in Hin. rewrite Hframe in Hin. by destruct Hin.
Qed.

(** A construction that returns adds the enabled extensions of its
    document to the dictionary: whatever instance is asked afterwards,
    also one built earlier, finds them. *)
Lemma later_construction_registers (earlier later : ExtensionRegistry)
    (vkxml ext : Element) (registry : Registry) (n : string) :
  fst (ExtensionRegistry_init later vkxml registry) = Ok () →
  ext ∈ findall vkxml "extensions/extension" →
  Element_get ext "supported" ≠ Some "disabled" →
  attrib ext !! "name" = Some n →
  in_registry earlier (snd (ExtensionRegistry_init later vkxml registry)) n = true.
Proof.
  intros Hok Hin Hen Hname. apply in_registry_lookup.
  by apply (init_loop_registers _ _ ext).
Qed.

(** C1: the mapping is not owned by the instance.  With [R1] built from
    [doc_one] and then [R2] built from [doc_two], the queries on [R1] for
    the extension of [doc_two] answer absent before [R2] is built and
    present after: both instances read the one dictionary of the class. *)
Theorem registry_shared_between_instances :
  let after_R1 := snd (ExtensionRegistry_init R1 doc_one ∅) in
  let after_R2 := snd (ExtensionRegistry_init R2 doc_two after_R1) in
  fst (ExtensionRegistry_init R1 doc_one ∅) = Ok ()
  ∧ fst (ExtensionRegistry_init R2 doc_two after_R1) = Ok ()
  ∧ in_registry R1 after_R1 "VK_EXT_two" = false
  ∧ get_registry_entry R1 after_R1 "VK_EXT_two" = Ok None
  ∧ in_registry R1 after_R2 "VK_EXT_two" = true
  ∧ get_registry_entry R1 after_R2 "VK_EXT_two"
    = Ok (Some {| ext_type := "instance"; promoted_in := None;
                  commands := Some []; constants := Some [];
                  features_struct := None; properties_struct := None |}).
Proof. vm_compute. repeat split. Qed.

(** C8: with [R1] built from [doc_one] and then [R2] built from
    [doc_one_disabled], where the same extension is disabled, the loop of
    [R2] skips the element and stores nothing, yet the queries on [R2]
    find the name: the entry stored for [R1] is in the dictionary that
    [R2] reads.  Built first, [R2] would not find it. *)
Theorem disabled_name_found_after_earlier_instance :
  let after_R1 := snd (ExtensionRegistry_init R1 doc_one ∅) in
  let after_R2 := snd (ExtensionRegistry_init R2 doc_one_disabled after_R1) in
  ExtensionRegistry_init R2 doc_one_disabled after_R1 = (Ok (), after_R1)
  ∧ in_registry R2 after_R2 "VK_EXT_one" = true
  ∧ get_registry_entry R2 after_R2 "VK_EXT_one"
    = Ok (Some {| ext_type := "device"; promoted_in := None;
                  commands := Some [Some "vkOne"]; constants := Some [];
                  features_struct := None; properties_struct := None |})
  ∧ in_registry R2 (snd (ExtensionRegistry_init R2 doc_one_disabled ∅)) "VK_EXT_one" = false.
Proof. vm_compute. repeat split. Qed.

(** ** ExtensionRegistry: parse_promotedto *)

Lemma parse_promotedto_None : parse_promotedto None = Ok None.
Proof. reflexivity. Qed.

Lemma parse_promotedto_other_prefix (s : string) :
  Py.startswith s "VK_VERSION_" = false → parse_promotedto (Some s) = Ok None.
Proof. intros Hs. unfold parse_promotedto. by rewrite Hs, andb_false_r. Qed.

(** X10: the version tokens the registry uses are read as intended:
    VK_VERSION_, the decimal text of a non-negative major, an underscore
    and the decimal text of a non-negative minor give the pair
    (major, minor). *)
Lemma parse_promotedto_version (major minor : Z) :
  (0 ≤ major)%Z → (0 ≤ minor)%Z →
  parse_promotedto (Some ("VK_VERSION_" +:+ Py.str major +:+ "_" +:+ Py.str minor))
  = Ok (Some (major, minor)).
Proof.
  intros Hmajor Hminor.
  assert (Py.split "_" ("VK_VERSION_" +:+ Py.str major +:+ "_" +:+ Py.str minor)
          = ["VK"; "VERSION"; Py.str major; Py.str minor]) as Hsplit.
  { change ("VK_VERSION_" +:+ Py.str major +:+ "_" +:+ Py.str minor)
      with (Py.join "_" ["VK"; "VERSION"; Py.str major; Py.str minor]).
    apply PyFacts.split_join. repeat constructor; by apply PyFacts.str_token. }
  assert (Py.startswith ("VK_VERSION_" +:+ Py.str major +:+ "_" +:+ Py.str minor)
            "VK_VERSION_" = true) as Hprefix
    by (apply PyFacts.startswith_spec; by eexists).
  unfold parse_promotedto. rewrite Hsplit, Hprefix.
  cbn -[Py.int Py.str]. by rewrite !PyFacts.int_str.
Qed.

Lemma slice_last_two {A : Type} (l : list A) :
  (2 ≤ length l)%nat → ∃ a b, Py.slice_last 2 l = [a; b].
Proof.
  intros Hlen. unfold Py.slice_last.
  pose proof (length_drop l (length l - 2)) as Hdrop.
  destruct (drop (length l - 2) l) as [| a [| b [| c rest]]]; simpl in Hdrop; try lia.
  by exists a, b.
Qed.

(** With the prefix there are always two tokens to unpack. *)
Lemma parse_promotedto_unpacks (s : string) :
  Py.startswith s "VK_VERSION_" = true →
  ∃ major minor, Py.slice_last 2 (Py.split "_" s) = [major; minor].
Proof.
  intros (q & ->)%PyFacts.startswith_spec.
  apply slice_last_two, PyFacts.split_length, PyFacts.occurs_spec.
  by exists "VK", ("VERSION_" +:+ q).
Qed.

(** C2: [parse_promotedto] reads VK_VERSION_1_2 as (1, 2) and answers
    absent for NS_OTHER_EXT, for the empty string and for [None]; on
    VK_VERSION_1, VK_VERSION_1_x and VK_VERSION_ it raises [ValueError]
    from [int] instead of answering absent, and on VK_VERSION_1_2_3 it
    answers (2, 3). *)
Theorem parse_promotedto_raises_ValueError :
  parse_promotedto (Some "VK_VERSION_1_2") = Ok (Some (1, 2)%Z)
  ∧ parse_promotedto (Some "NS_OTHER_EXT") = Ok None
  ∧ parse_promotedto (Some "") = Ok None
  ∧ parse_promotedto None = Ok None
  ∧ parse_promotedto (Some "VK_VERSION_1") = Raise ValueError
  ∧ parse_promotedto (Some "VK_VERSION_1_x") = Raise ValueError
  ∧ parse_promotedto (Some "VK_VERSION_") = Raise ValueError
  ∧ parse_promotedto (Some "VK_VERSION_1_2_3") = Ok (Some (2, 3)%Z).
Proof. vm_compute. repeat split. Qed.

(** The exception leaves the constructor; the extensions stored by the
    earlier iterations stay in the dictionary. *)
Example ex_init_raises :
  ExtensionRegistry_init R1
    (registry_of
       [elem "extension" [("name", "VK_EXT_one"); ("type", "device")] [];
        elem "extension"
          [("name", "VK_EXT_two"); ("type", "device"); ("promotedto", "VK_VERSION_1")] []])
    ∅
  = (Raise ValueError,
     {["VK_EXT_one" := {| ext_type := "device"; promoted_in := None;
                          commands := Some []; constants := Some [];
                          features_struct := None; properties_struct := None |}]}).
Proof. by vm_compute. Qed.

(** ** [re.match]: the matcher decides the language of the pattern *)

Module ReFacts.
Import Re.

Lemma append_nil_inv (a b : string) : a +:+ b = EmptyString → a = EmptyString ∧ b = EmptyString.
Proof. by destruct a. Qed.

Lemma append_cons (x : ascii) (a b : string) : String x a +:+ b = String x (a +:+ b).
Proof. reflexivity. Qed.

Lemma append_assoc (a b c : string) : (a +:+ b) +:+ c = a +:+ (b +:+ c).
Proof. induction a as [| x a IH]; [done | by rewrite !append_cons, IH]. Qed.

Lemma append_nil_r (a : string) : a +:+ EmptyString = a.
Proof. induction a as [| x a IH]; [done | by rewrite append_cons, IH]. Qed.

Lemma nullable_spec (r : regex) : nullable r = true ↔ lang r EmptyString.
Proof.
  induction r as [| | c | | r1 IH1 r2 IH2 | r1 IH1 r2 IH2 | r IH]; simpl.
  - split; [done | inversion 1].
  - split; [constructor | done].
  - split; [done | inversion 1].
  - split; [done | inversion 1].
  - rewrite andb_true_iff, IH1, IH2. split.
    + intros [H1 H2]. exact (lang_cat _ _ _ _ H1 H2).
    + inversion 1 as [| | | ? ? s1 s2 H1 H2 | | | |]; subst.
      match goal with
      | Heq : s1 +:+ s2 = EmptyString |- _ => by apply append_nil_inv in Heq as [-> ->]
      end.
  - rewrite orb_true_iff, IH1, IH2. split.
    + intros [H | H]; [by apply lang_alt_l | by apply lang_alt_r].
    + inversion 1; subst; [by left | by right].
  - split; [constructor | done].
Qed.

Lemma deriv_sound (c : ascii) (r : regex) (s : string) :
  lang (deriv c r) s → lang r (String c s).
Proof.
  revert s. induction r as [| | c' | | r1 IH1 r2 IH2 | r1 IH1 r2 IH2 | r IH];
    intros s; simpl.
  - inversion 1.
  - inversion 1.
  - destruct (Ascii.eqb_spec c c') as [-> |]; inversion 1. constructor.
  - destruct (Ascii.eqb_spec c newline) as [-> | Hc]; inversion 1. by constructor.
  - assert (∀ s, lang (Cat (deriv c r1) r2) s → lang (Cat r1 r2) (String c s)) as Hcat.
    { intros s'. inversion 1 as [| | | ? ? s1 s2 H1 H2 | | | |]; subst.
      exact (lang_cat _ _ _ _ (IH1 _ H1) H2). }
    destruct (nullable r1) eqn:Hnull; [| by apply Hcat].
    inversion 1; subst; [by apply Hcat |].
    apply nullable_spec in Hnull.
    exact (lang_cat _ _ _ _ Hnull (IH2 _ ltac:(eassumption))).
  - inversion 1; subst; [apply lang_alt_l | apply lang_alt_r]; auto.
  - inversion 1 as [| | | ? ? s1 s2 H1 H2 | | | |]; subst.
    exact (lang_star_cons _ _ _ (IH _ H1) H2).
Qed.

Lemma deriv_complete (c : ascii) (r : regex) (s : string) :
  lang r (String c s) → lang (deriv c r) s.
Proof.
  intros H. remember (String c s) as w eqn:Hw. revert s Hw.
  induction H as [| c' | c' Hc' | r1 r2 s1 s2 H1 IH1 H2 IH2 | r1 r2 w H IH
                 | r1 r2 w H IH | r | r s1 s2 H1 IH1 H2 IH2];
    intros s Hw; simpl.
  - discriminate.
  - injection Hw as -> <-. rewrite Ascii.eqb_refl. constructor.
  - injection Hw as -> <-.
    destruct (Ascii.eqb_spec c newline); [done | constructor].
  - destruct s1 as [| x s1]; simpl in Hw.
    + apply nullable_spec in H1. rewrite H1. apply lang_alt_r. by apply IH2.
    + injection Hw as -> <-.
      pose proof (lang_cat _ _ _ _ (IH1 _ eq_refl) H2) as Hcat.
      destruct (nullable r1); [by apply lang_alt_l | done].
  - apply lang_alt_l. by apply IH.
  - apply lang_alt_r. by apply IH.
  - discriminate.
  - destruct s1 as [| x s1]; simpl in Hw.
    + by apply IH2.
    + injection Hw as -> <-. exact (lang_cat _ _ _ _ (IH1 _ eq_refl) H2).
Qed.

(** [matches r s] holds exactly when a prefix of [s] is in the language
    of [r]. *)
Lemma matches_spec (r : regex) (s : string) :
  matches r s = true ↔ ∃ p q, s = p +:+ q ∧ lang r p.
Proof.
  revert r. induction s as [| c s IH]; intros r; simpl.
  - rewrite orb_false_r, nullable_spec. split.
    + intros H. by exists EmptyString, EmptyString.
    + intros (p & q & Heq & H). symmetry in Heq.
      by apply append_nil_inv in Heq as [-> _].
  - rewrite orb_true_iff, nullable_spec, IH. split.
    + intros [H | (p & q & -> & H)].
      * by exists EmptyString, (String c s).
      * exists (String c p), q. split; [done | by apply deriv_sound].
    + intros ([| x p] & q & Heq & H); [by left |].
      simpl in Heq. injection Heq as <- ->. right.
      exists p, q. split; [done | by apply deriv_complete].
Qed.

Lemma lang_lit (w p : string) : lang (lit w) p ↔ p = w.
Proof.
  revert p. induction w as [| c w IH]; intros p; simpl.
  - split; [by inversion 1 | intros ->; constructor].
  - split.
    + inversion 1 as [| | | ? ? s1 s2 H1 H2 | | | |]; subst.
      inversion H1; subst. apply IH in H2 as ->. done.
    + intros ->. apply (lang_cat _ _ (String c EmptyString) w); [constructor | by apply IH].
Qed.

Lemma lang_star_dot (p : string) :
  lang (Star Dot) p ↔ Py.occurs newline p = false.
Proof.
  split.
  - intros H. remember (Star Dot) as r eqn:Hr.
    induction H as [| | | | | | | r s1 s2 H1 _ H2 IH2]; try discriminate; [done |].
    injection Hr as ->. rewrite PyFacts.occurs_app, (IH2 eq_refl), orb_false_r.
    inversion H1 as [| | c Hc | | | | |]; subst. simpl.
    rewrite orb_false_r. by apply Ascii.eqb_neq.
  - induction p as [| c p IH]; simpl; [constructor |].
    intros [Hc Hp]%orb_false_iff.
    apply (lang_star_cons _ (String c EmptyString) p); [| by apply IH].
    constructor. by apply Ascii.eqb_neq.
Qed.

(** A pattern [prefix.*word.*] matches the strings that begin with the
    prefix and hold the word after it with no newline in between. *)
Lemma matches_prefix_word (prefix word s : string) :
  matches (Cat (lit prefix) (Cat (Star Dot) (Cat (lit word) (Star Dot)))) s = true
  ↔ ∃ a rest,
      s = prefix +:+ a +:+ word +:+ rest ∧ Py.occurs newline a = false.
Proof.
  rewrite matches_spec. split.
  - intros (p & q & -> & H).
    inversion H as [| | | ? ? s1 t1 H1 Ht1 | | | |]; subst.
    inversion Ht1 as [| | | ? ? s2 t2 H2 Ht2 | | | |]; subst.
    inversion Ht2 as [| | | ? ? s3 t3 H3 Ht3 | | | |]; subst.
    apply lang_lit in H1 as ->. apply lang_lit in H3 as ->.
    apply lang_star_dot in H2.
    exists s2, (t3 +:+ q). split; [| done].
    by rewrite !append_assoc.
  - intros (a & rest & -> & Ha).
    exists (prefix +:+ a +:+ word +:+ EmptyString), rest. split.
    + by rewrite !append_assoc.
    + apply lang_cat; [by apply lang_lit |].
      apply lang_cat; [by apply lang_star_dot |].
      apply lang_cat; [by apply lang_lit | constructor].
Qed.

End ReFacts.

(** X21: [is_features_struct] accepts exactly the strings that begin with
    VkPhysicalDevice and hold Features somewhere after it, with no newline
    between the two; what follows Features is free. *)
Lemma is_features_struct_spec (s : string) :
  is_features_struct (Some s) = Ok true
  ↔ ∃ a rest, s = "VkPhysicalDevice" +:+ a +:+ "Features" +:+ rest
              ∧ Py.occurs Re.newline a = false.
Proof.
  rewrite <- (ReFacts.matches_prefix_word "VkPhysicalDevice" "Features").
  unfold is_features_struct, features_re. split; intros H; [by injection H | by f_equal].
Qed.

(** X22: [is_properties_struct] accepts exactly the strings that begin
    with VkPhysicalDevice and hold Properties somewhere after it, with no
    newline between the two; what follows Properties is free. *)
Lemma is_properties_struct_spec (s : string) :
  is_properties_struct (Some s) = Ok true
  ↔ ∃ a rest, s = "VkPhysicalDevice" +:+ a +:+ "Properties" +:+ rest
              ∧ Py.occurs Re.newline a = false.
Proof.
  rewrite <- (ReFacts.matches_prefix_word "VkPhysicalDevice" "Properties").
  unfold is_properties_struct, properties_re. split; intros H; [by injection H | by f_equal].
Qed.

(** * Further properties of the registry *)

(** ** The two queries *)

(** X1: [get_registry_entry] never raises: the indexing it does is
    guarded by [in_registry].  It answers the entry stored under the name
    when [in_registry] answers true, and [None] when it answers false. *)
Theorem get_registry_entry_agrees_with_in_registry (self : ExtensionRegistry)
    (registry : Registry) (ext_name : string) :
  returns (get_registry_entry self registry ext_name)
  ∧ (in_registry self registry ext_name = true
     ↔ ∃ entry, registry !! ext_name = Some entry
                ∧ get_registry_entry self registry ext_name = Ok (Some entry))
  ∧ (in_registry self registry ext_name = false
     ↔ get_registry_entry self registry ext_name = Ok None).
Proof.
  rewrite get_registry_entry_lookup. split; [by eexists |]. split.
  - rewrite in_registry_lookup. split.
    + intros [entry Hentry]. exists entry. by rewrite Hentry.
    + intros (entry & Hentry & _). by exists entry.
  - rewrite <- not_true_iff_false, in_registry_lookup, <- eq_None_not_Some.
    split; [by intros -> | by intros [= ->]].
Qed.

(** ** The loop of the constructor *)

(** The loop over a concatenation: the second part runs on what the first
    part left, unless the first part raised. *)
Lemma init_loop_app (pre post : list Element) (registry : Registry) :
  init_loop (pre ++ post) registry
  = match fst (init_loop pre registry) with
    | Ok _ => init_loop post (snd (init_loop pre registry))
    | Raise e => (Raise e, snd (init_loop pre registry))
    end.
Proof.
  revert registry. induction pre as [| ext pre IH]; intros registry; [done |].
  simpl. case_bool_decide; [apply IH |].
  destruct (build_entry ext) as [[name entry] | e]; [apply IH | done].
Qed.

Lemma init_loop_returns_iff (exts : list Element) (registry : Registry) :
  fst (init_loop exts registry) = Ok ()
  ↔ Forall (λ ext, enabled ext → returns (build_entry ext)) exts.
Proof.
  unfold enabled. revert registry.
  induction exts as [| ext exts IH]; intros registry; simpl.
  - split; [constructor | done].
  - rewrite Forall_cons. case_bool_decide as Hdis.
    + rewrite IH. split; [| by intros [_ ?]]. intros ?. split; [| done].
      intros Hen. by destruct Hen.
    + destruct (build_entry ext) as [[name entry] | e].
      * rewrite IH. split; [| by intros [_ ?]]. intros ?. split; [| done].
        intros _. by eexists.
      * split; [done |]. intros [Hret _]. destruct (Hret Hdis) as [? ?]. discriminate.
Qed.

Lemma init_loop_keys (exts : list Element) (registry : Registry) (n : string) :
  is_Some (snd (init_loop exts registry) !! n) →
  is_Some (registry !! n)
  ∨ ∃ ext, ext ∈ exts ∧ enabled ext ∧ attrib ext !! "name" = Some n.
Proof.
  unfold enabled. revert registry.
  induction exts as [| ext exts IH]; intros registry; simpl; [by left |].
  case_bool_decide as Hdis.
  - intros [? | (x & ? & ?)]%IH; [by left |]. right. exists x. by rewrite elem_of_cons; auto.
  - destruct (build_entry ext) as [[name entry] | e] eqn:Hbuild; [| by left].
    intros [Hn | (x & ? & ?)]%IH.
    + destruct (decide (name = n)) as [-> | Hne].
      * right. exists ext. apply build_entry_inv in Hbuild as [Hname _].
        split; [apply list_elem_of_here | done].
      * left. by rewrite lookup_insert_ne in Hn.
    + right. exists x. by rewrite elem_of_cons; auto.
Qed.

(** X2: the constructor leaves untouched every name that no enabled
    extension of its document carries, whether it returns or raises: the
    queries answer for such a name after the construction what they
    answered before. *)
Theorem construction_frame (self : ExtensionRegistry) (vkxml : Element)
    (registry : Registry) (n : string) :
  Forall (λ ext, enabled ext → attrib ext !! "name" ≠ Some n)
         (findall vkxml "extensions/extension") →
  in_registry self (snd (ExtensionRegistry_init self vkxml registry)) n
  = in_registry self registry n
  ∧ get_registry_entry self (snd (ExtensionRegistry_init self vkxml registry)) n
    = get_registry_entry self registry n.
Proof.
  intros Hall. unfold ExtensionRegistry_init, self_registry.
  pose proof (init_loop_frame _ registry n Hall) as Hframe.
  rewrite !get_registry_entry_lookup, Hframe. split; [| done].
  apply eq_true_iff_eq. by rewrite !in_registry_lookup, Hframe.
Qed.

Lemma construction_frame_witness :
  in_registry R2 (snd (ExtensionRegistry_init R2 doc_two {["VK_EXT_one" := ExtensionRegistryEntry_new]}))
    "VK_EXT_one"
  = in_registry R2 {["VK_EXT_one" := ExtensionRegistryEntry_new]} "VK_EXT_one".
Proof.
  apply (construction_frame R2 doc_two {["VK_EXT_one" := ExtensionRegistryEntry_new]}
           "VK_EXT_one").
  vm_compute. repeat constructor. intros _. discriminate.
Defined.

(** X3: when the constructor returns, the names [in_registry] finds are
    those it found before together with the names of the enabled
    extensions of the document. *)
Theorem construction_keys (self : ExtensionRegistry) (vkxml : Element)
    (registry : Registry) (n : string) :
  fst (ExtensionRegistry_init self vkxml registry) = Ok () →
  in_registry self (snd (ExtensionRegistry_init self vkxml registry)) n = true
  ↔ in_registry self registry n = true
    ∨ ∃ ext, ext ∈ findall vkxml "extensions/extension"
             ∧ enabled ext ∧ attrib ext !! "name" = Some n.
Proof.
  intros Hok. rewrite !in_registry_lookup.
  unfold ExtensionRegistry_init, self_registry in *. split.
  - apply init_loop_keys.
  - intros [Hold | (ext & Hin & Hen & Hname)].
    + by apply init_loop_mono.
    + by apply (init_loop_registers _ _ ext).
Qed.

Lemma construction_keys_witness :
  in_registry R1 (snd (ExtensionRegistry_init R1 doc_one ∅)) "VK_EXT_one" = true
  ∧ ¬ (in_registry R1 (snd (ExtensionRegistry_init R1 doc_one ∅)) "VK_EXT_two" = true).
Proof.
  split.
  - apply (construction_keys R1 doc_one ∅ "VK_EXT_one"); [by vm_compute |].
    right. eexists. split; [vm_compute; apply list_elem_of_here |].
    split; [by vm_compute | by vm_compute].
  - intros Hin.
    apply (construction_keys R1 doc_one ∅ "VK_EXT_two") in Hin; [| by vm_compute].
    destruct Hin as [Hold | (ext & Hin & _ & Hname)]; [by vm_compute in Hold |].
    vm_compute in Hin. apply list_elem_of_singleton in Hin. subst ext.
    by vm_compute in Hname.
Defined.

(** X4: the constructor never unregisters a name, whether it returns or
    raises; the entry stored under the name may be replaced. *)
Theorem construction_keeps_names (self : ExtensionRegistry) (vkxml : Element)
    (registry : Registry) (n : string) :
  in_registry self registry n = true →
  in_registry self (snd (ExtensionRegistry_init self vkxml registry)) n = true.
Proof.
  rewrite !in_registry_lookup. apply init_loop_mono.
Qed.

Lemma construction_keeps_names_witness :
  in_registry R2 (snd (ExtensionRegistry_init R2 doc_missing_type
                         {["VK_EXT_old" := ExtensionRegistryEntry_new]}))
    "VK_EXT_old" = true.
Proof.
  apply (construction_keeps_names R2 doc_missing_type
           {["VK_EXT_old" := ExtensionRegistryEntry_new]} "VK_EXT_old").
  by vm_compute.
Defined.

(** X5: when several enabled extensions of a document carry one name, the
    entry found under the name is the one built from the last of them,
    provided the loop reaches it. *)
Theorem last_extension_of_a_name_wins (self : ExtensionRegistry) (vkxml : Element)
    (registry : Registry) (pre post : list Element) (ext : Element)
    (n : string) (entry : ExtensionRegistryEntry) :
  findall vkxml "extensions/extension" = pre ++ ext :: post →
  Forall (λ x, enabled x → returns (build_entry x)) pre →
  enabled ext →
  build_entry ext = Ok (n, entry) →
  Forall (λ x, enabled x → attrib x !! "name" ≠ Some n) post →
  get_registry_entry self (snd (ExtensionRegistry_init self vkxml registry)) n
  = Ok (Some entry).
Proof.
  intros Hexts Hpre Hen Hbuild Hpost.
  rewrite get_registry_entry_lookup. unfold ExtensionRegistry_init, self_registry.
  rewrite Hexts, init_loop_app.
  apply (init_loop_returns_iff pre registry) in Hpre. rewrite Hpre.
  rewrite (init_loop_enabled _ _ _ _ _ Hen Hbuild).
  by rewrite (init_loop_frame _ _ n Hpost), lookup_insert_eq.
Qed.

Lemma last_extension_of_a_name_wins_witness :
  get_registry_entry R1 (snd (ExtensionRegistry_init R1 doc_twice ∅)) "VK_EXT_one"
  = Ok (Some {| ext_type := "instance"; promoted_in := None;
                commands := Some []; constants := Some [];
                features_struct := None; properties_struct := None |}).
Proof.
  apply (last_extension_of_a_name_wins R1 doc_twice ∅
           [elem "extension" [("name", "VK_EXT_one"); ("type", "device")] []] []
           (elem "extension" [("name", "VK_EXT_one"); ("type", "instance")] [])).
  - by vm_compute.
  - repeat constructor. intros _. eexists. by vm_compute.
  - by vm_compute.
  - by vm_compute.
  - constructor.
Defined.

(** X6: when the entry of an enabled extension cannot be built, the
    constructor raises the exception of that extension; the extensions
    before it are registered, and nothing after it is read: the
    dictionary is left as the loop over the extensions before it leaves
    it. *)
Theorem construction_stops_at_first_failure (self : ExtensionRegistry) (vkxml : Element)
    (registry : Registry) (pre post : list Element) (ext : Element) (e : PyExn) :
  findall vkxml "extensions/extension" = pre ++ ext :: post →
  Forall (λ x, enabled x → returns (build_entry x)) pre →
  enabled ext →
  build_entry ext = Raise e →
  fst (init_loop pre registry) = Ok ()
  ∧ ExtensionRegistry_init self vkxml registry = (Raise e, snd (init_loop pre registry)).
Proof.
  intros Hexts Hpre Hen Hbuild.
  apply (init_loop_returns_iff pre registry) in Hpre. split; [done |].
  unfold ExtensionRegistry_init, self_registry.
  rewrite Hexts, init_loop_app, Hpre. simpl.
  by rewrite bool_decide_eq_false_2, Hbuild.
Qed.

Lemma construction_stops_at_first_failure_witness :
  ExtensionRegistry_init R1 doc_missing_type ∅
  = (Raise (KeyError "type"),
     snd (init_loop [elem "extension" [("name", "VK_EXT_one"); ("type", "device")] []] ∅))
  ∧ in_registry R1 (snd (ExtensionRegistry_init R1 doc_missing_type ∅)) "VK_EXT_one" = true
  ∧ in_registry R1 (snd (ExtensionRegistry_init R1 doc_missing_type ∅)) "VK_EXT_two" = false.
Proof.
  split; [| by vm_compute].
  apply (construction_stops_at_first_failure R1 doc_missing_type ∅
           [elem "extension" [("name", "VK_EXT_one"); ("type", "device")] []]
           [elem "extension" [("name", "VK_EXT_two"); ("type", "instance")] []]
           (elem "extension" [("name", "VK_EXT_broken")] [])).
  - by vm_compute.
  - repeat constructor. intros _. eexists. by vm_compute.
  - by vm_compute.
  - by vm_compute.
Defined.

(** ** The entry of one extension: when it is built, and what is raised *)

Lemma loop_types_raises (tys : list Element) (structs : option string * option string)
    (e : PyExn) :
  loop_types tys structs = Raise e → e = TypeError.
Proof.
  revert structs. induction tys as [| ty tys IH]; intros structs; simpl; [done |].
  destruct (Element_get ty "name") as [tn |]; simpl; [| by intros [= <-]].
  destruct (Re.matches features_re tn); [apply IH |].
  destruct (Re.matches properties_re tn); apply IH.
Qed.

Lemma build_entry_returns_iff (ext : Element) :
  returns (build_entry ext)
  ↔ is_Some (attrib ext !! "name")
    ∧ is_Some (attrib ext !! "type")
    ∧ returns (parse_promotedto (Element_get ext "promotedto"))
    ∧ Forall (λ ty, is_Some (Element_get ty "name")) (findall ext "require/type").
Proof.
  rewrite (loop_types_returns _ (None, None)). split.
  - intros [[n entry] (Hn & Hty & Hprom & _ & _ & Htypes)%build_entry_inv].
    repeat split; by eexists.
  - intros ([n Hn] & [ty Hty] & [p Hp] & [structs Htypes]).
    eexists. by apply (build_entry_ok ext n ty p structs).
Qed.

(** X7: the constructor returns exactly when every enabled extension of
    the document has a [name] and a [type] attribute, a [promotedto] that
    [parse_promotedto] accepts, and a [name] on each of its required
    types; extensions marked disabled are not looked at. *)
Theorem construction_returns_iff (self : ExtensionRegistry) (vkxml : Element)
    (registry : Registry) :
  fst (ExtensionRegistry_init self vkxml registry) = Ok ()
  ↔ Forall (λ ext, enabled ext →
                   is_Some (attrib ext !! "name")
                   ∧ is_Some (attrib ext !! "type")
                   ∧ returns (parse_promotedto (Element_get ext "promotedto"))
                   ∧ Forall (λ ty, is_Some (Element_get ty "name"))
                            (findall ext "require/type"))
           (findall vkxml "extensions/extension").
Proof.
  unfold ExtensionRegistry_init, self_registry.
  rewrite init_loop_returns_iff. apply Forall_iff. intros ext.
  by rewrite build_entry_returns_iff.
Qed.

(** X8: what building the entry of an extension raises, in the order of
    the checks: [KeyError] for a missing [name], then [KeyError] for a
    missing [type], then the exception of [parse_promotedto], then
    [TypeError] when a required type has no [name]. *)
Theorem build_entry_raises (ext : Element) :
  (attrib ext !! "name" = None → build_entry ext = Raise (KeyError "name"))
  ∧ (is_Some (attrib ext !! "name") → attrib ext !! "type" = None →
     build_entry ext = Raise (KeyError "type"))
  ∧ (∀ e, is_Some (attrib ext !! "name") → is_Some (attrib ext !! "type") →
          parse_promotedto (Element_get ext "promotedto") = Raise e →
          build_entry ext = Raise e)
  ∧ (is_Some (attrib ext !! "name") → is_Some (attrib ext !! "type") →
     returns (parse_promotedto (Element_get ext "promotedto")) →
     ¬ Forall (λ ty, is_Some (Element_get ty "name")) (findall ext "require/type") →
     build_entry ext = Raise TypeError).
Proof.
  unfold build_entry, attrib_getitem. simpl. repeat split.
  - by intros ->.
  - by intros [n ->] ->.
  - by intros e [n ->] [ty ->] ->.
  - intros [n ->] [ty ->] [p ->] Htypes. simpl.
    destruct (loop_types _ _) as [structs | e] eqn:Hloop.
    + destruct Htypes. apply (loop_types_returns _ (None, None)). by eexists.
    + by apply loop_types_raises in Hloop as ->.
Qed.

Lemma build_entry_raises_witness :
  build_entry (elem "extension" [("type", "device")] []) = Raise (KeyError "name")
  ∧ build_entry (elem "extension" [("name", "VK_EXT_broken")] []) = Raise (KeyError "type")
  ∧ build_entry (elem "extension"
                   [("name", "VK_EXT_broken"); ("type", "device"); ("promotedto", "VK_VERSION_1")]
                   [])
    = Raise ValueError
  ∧ build_entry (elem "extension" [("name", "VK_EXT_broken"); ("type", "device")]
                   [elem "require" [] [elem "type" [] []]])
    = Raise TypeError.
Proof.
  split; [| split; [| split]].
  - apply (proj1 (build_entry_raises (elem "extension" [("type", "device")] []))).
    by vm_compute.
  - apply (proj1 (proj2 (build_entry_raises
                           (elem "extension" [("name", "VK_EXT_broken")] [])))).
    + eexists. by vm_compute.
    + by vm_compute.
  - apply (proj1 (proj2 (proj2 (build_entry_raises
             (elem "extension"
                [("name", "VK_EXT_broken"); ("type", "device"); ("promotedto", "VK_VERSION_1")]
                []))))).
    + eexists. by vm_compute.
    + eexists. by vm_compute.
    + by vm_compute.
  - apply (proj2 (proj2 (proj2 (build_entry_raises
             (elem "extension" [("name", "VK_EXT_broken"); ("type", "device")]
                [elem "require" [] [elem "type" [] []]]))))).
    + eexists. by vm_compute.
    + eexists. by vm_compute.
    + eexists. by vm_compute.
    + vm_compute. intros Hall. inversion Hall as [| ? ? [? Hnone] _]. discriminate.
Defined.

(** ** The struct names of an entry *)

Lemma loop_types_last (tys : list Element) (fs ps : option string) :
  Forall (λ ty, is_Some (Element_get ty "name")) tys →
  loop_types tys (fs, ps)
  = Ok (match last (filter (λ s, Re.matches features_re s)
                           (omap (λ ty, Element_get ty "name") tys)) with
        | Some s => Some s
        | None => fs
        end,
        match last (filter (λ s, ¬ Re.matches features_re s ∧ Re.matches properties_re s)
                           (omap (λ ty, Element_get ty "name") tys)) with
        | Some s => Some s
        | None => ps
        end).
Proof.
  revert fs ps. induction tys as [| ty tys IH]; intros fs ps Hall; [done |].
  inversion Hall as [| ? ? [tn Htn] Htys]; subst.
  cbn [loop_types omap list_omap]. rewrite Htn. cbn [is_features_struct is_properties_struct bind fst snd].
  rewrite !filter_cons.
  destruct (Re.matches features_re tn) eqn:Hf.
  - rewrite (IH _ _ Htys), decide_True by done.
    rewrite decide_False by (by intros [[] _]).
    rewrite last_cons. by destruct (last (filter _ _)).
  - rewrite decide_False by (by intros []).
    destruct (Re.matches properties_re tn) eqn:Hp.
    + rewrite (IH _ _ Htys), decide_True by (split; [by intros [] | done]).
      rewrite last_cons. by destruct (last (filter (λ s, ¬ _ ∧ _) _)).
    + rewrite (IH _ _ Htys). by rewrite decide_False by (by intros [_ []]).
Qed.

(** X9: in the entry of an extension, [features_struct] is the name of the
    last required type that matches the features pattern, and
    [properties_struct] is the name of the last required type that matches
    the properties pattern and not the features pattern; each is [None]
    when there is no such type. *)
Theorem struct_names_last_match (ext : Element) (n : string)
    (entry : ExtensionRegistryEntry) :
  build_entry ext = Ok (n, entry) →
  features_struct entry
  = last (filter (λ s, Re.matches features_re s) (required_type_names ext))
  ∧ properties_struct entry
    = last (filter (λ s, ¬ Re.matches features_re s ∧ Re.matches properties_re s)
                   (required_type_names ext)).
Proof.
  intros Hbuild.
  assert (returns (build_entry ext)) as Hret by (by eexists).
  apply build_entry_returns_iff in Hret as (_ & _ & _ & Hnamed).
  apply build_entry_inv in Hbuild as (_ & _ & _ & _ & _ & Htypes).
  rewrite (loop_types_last _ None None Hnamed) in Htypes.
  injection Htypes as Hfs Hps. unfold required_type_names.
  rewrite <- Hfs, <- Hps. split.
  - by destruct (last (filter _ _)).
  - by destruct (last (filter (λ s, ¬ _ ∧ _) _)).
Qed.

Lemma struct_names_last_match_witness :
  ∃ entry,
    build_entry ext_three_types = Ok ("VK_EXT_three", entry)
    ∧ features_struct entry = Some "VkPhysicalDeviceNewFeaturesEXT"
    ∧ properties_struct entry = Some "VkPhysicalDeviceSomePropertiesEXT".
Proof.
  eexists. split; [by vm_compute |].
  destruct (struct_names_last_match ext_three_types "VK_EXT_three"
              {| ext_type := "device"; promoted_in := None;
                 commands := Some []; constants := Some [];
                 features_struct := Some "VkPhysicalDeviceNewFeaturesEXT";
                 properties_struct := Some "VkPhysicalDeviceSomePropertiesEXT" |})
    as [Hfs Hps]; [by vm_compute |].
  done.
Defined.

(** ** The outcomes of [parse_promotedto] *)

Lemma int_raises (s : string) (e : PyExn) : Py.int s = Raise e → e = ValueError.
Proof.
  unfold Py.int.
  match goal with
  | |- match ?literal with Some _ => _ | None => _ end = _ → _ => destruct literal
  end; by intros [= <-].
Qed.

Lemma parse_promotedto_prefix (s : string) :
  Py.startswith s "VK_VERSION_" = true →
  ∃ major minor,
    Py.slice_last 2 (Py.split "_" s) = [major; minor]
    ∧ parse_promotedto (Some s)
      = (ma <- Py.int major ;; mi <- Py.int minor ;; Ok (Some (ma, mi))).
Proof.
  intros Hprefix. destruct (parse_promotedto_unpacks s Hprefix) as (major & minor & Hlast).
  exists major, minor. split; [done |].
  unfold parse_promotedto. rewrite Hprefix, Hlast.
  apply PyFacts.startswith_spec in Hprefix as [q ->]. done.
Qed.

(** X11: [parse_promotedto] answers [None] exactly on the inputs that lack
    the prefix ([None] and the empty string among them); the only
    exception it raises is [ValueError]; and a pair it returns holds the
    values [int] reads from the last two underscore-separated tokens of
    the input. *)
Theorem parse_promotedto_outcomes (promotedto : option string) :
  (parse_promotedto promotedto = Ok None
   ↔ ∀ s, promotedto = Some s → Py.startswith s "VK_VERSION_" = false)
  ∧ (∀ e, parse_promotedto promotedto = Raise e → e = ValueError)
  ∧ (∀ a b, parse_promotedto promotedto = Ok (Some (a, b)) →
            ∃ s major minor,
              promotedto = Some s
              ∧ Py.startswith s "VK_VERSION_" = true
              ∧ Py.slice_last 2 (Py.split "_" s) = [major; minor]
              ∧ Py.int major = Ok a ∧ Py.int minor = Ok b).
Proof.
  destruct promotedto as [s |]; [| by repeat split].
  destruct (Py.startswith s "VK_VERSION_") eqn:Hprefix.
  - destruct (parse_promotedto_prefix s Hprefix) as (major & minor & Hlast & ->).
    split; [| split].
    + split.
      * destruct (Py.int major); [| done]. by destruct (Py.int minor).
      * intros Hno. specialize (Hno s eq_refl). congruence.
    + intros e. destruct (Py.int major) as [ma |] eqn:Hma; simpl.
      * destruct (Py.int minor) eqn:Hmi; [done |]. simpl.
        intros [= <-]. by apply (int_raises minor).
      * intros [= <-]. by apply (int_raises major).
    + intros a b. destruct (Py.int major) as [ma |] eqn:Hma; [| done].
      destruct (Py.int minor) as [mi |] eqn:Hmi; [| done]. simpl.
      intros [= <- <-]. by exists s, major, minor.
  - rewrite (parse_promotedto_other_prefix s Hprefix). split; [| done].
    split; [| done]. by intros _ ? [= <-].
Qed.

Lemma parse_promotedto_outcomes_witness :
  Py.int "1" = Ok 1%Z ∧ Py.int "3" = Ok 3%Z.
Proof.
  destruct (proj2 (proj2 (parse_promotedto_outcomes (Some "VK_VERSION_1_3"))) 1%Z 3%Z)
    as (s & major & minor & [= <-] & _ & Hlast & Hmajor & Hminor);
    [by vm_compute |].
  vm_compute in Hlast. injection Hlast as <- <-. by split.
Defined.

Lemma parse_promotedto_version_witness :
  parse_promotedto (Some ("VK_VERSION_" +:+ Py.str 1 +:+ "_" +:+ Py.str 13))
  = Ok (Some (1, 13)%Z).
Proof. apply (parse_promotedto_version 1 13); lia. Defined.

(** * Further properties of the descriptors *)

(** ** More facts about the string built-ins *)

Module CaseFacts.

Lemma underscore_fixed : fixed_by_case "_".
Proof. intros c. destruct c as [[] [] [] [] [] [] [] []]; by vm_compute. Qed.

Lemma newline_fixed : fixed_by_case Re.newline.
Proof. intros c. destruct c as [[] [] [] [] [] [] [] []]; by vm_compute. Qed.

Lemma to_upper_idem (c : ascii) : Py.to_upper (Py.to_upper c) = Py.to_upper c.
Proof. destruct c as [[] [] [] [] [] [] [] []]; by vm_compute. Qed.

Lemma occurs_title_from (x : ascii) (prev_cased : bool) (s : string) :
  fixed_by_case x → Py.occurs x (Py.title_from prev_cased s) = Py.occurs x s.
Proof.
  intros Hx. revert prev_cased. induction s as [| c s IH]; intros prev_cased; [done |].
  cbn [Py.title_from Py.occurs]. rewrite IH.
  destruct (Hx c) as [Hup Hlow]. by destruct prev_cased; rewrite ?Hup, ?Hlow.
Qed.

Lemma occurs_upper (x : ascii) (s : string) :
  fixed_by_case x → Py.occurs x (Py.upper s) = Py.occurs x s.
Proof.
  intros Hx. induction s as [| c s IH]; [done |].
  cbn [Py.upper Py.occurs]. destruct (Hx c) as [Hup _]. by rewrite IH, Hup.
Qed.

(** A character that does not occur in a string occurs in none of its
    tokens. *)
Lemma occurs_split (x sep : ascii) (s : string) :
  Py.occurs x s = false → Forall (λ t, Py.occurs x t = false) (Py.split sep s).
Proof.
  unfold Py.split. induction s as [| c s IH]; simpl.
  - by repeat constructor.
  - intros [Hc Hs]%orb_false_iff. specialize (IH Hs).
    destruct (Py.split_aux sep s) as [tok toks].
    inversion IH as [| ? ? Htok Htoks]; subst.
    destruct (Ascii.eqb c sep).
    + by repeat constructor.
    + constructor; [simpl; by rewrite Hc | done].
Qed.

Lemma join_cons_cons (sep a b : string) (l : list string) :
  Py.join sep (a :: b :: l) = a +:+ sep +:+ Py.join sep (b :: l).
Proof. reflexivity. Qed.

Lemma occurs_join (x : ascii) (sep : string) (l : list string) :
  Py.occurs x sep = false →
  Forall (λ t, Py.occurs x t = false) l →
  Py.occurs x (Py.join sep l) = false.
Proof.
  intros Hsep. induction l as [| a [| b l] IH]; intros Hall; [done | by inversion Hall |].
  inversion Hall as [| ? ? Ha Hrest]; subst.
  by rewrite join_cons_cons, !PyFacts.occurs_app, Ha, Hsep, (IH Hrest).
Qed.

Lemma upper_app (a b : string) : Py.upper (a +:+ b) = Py.upper a +:+ Py.upper b.
Proof.
  induction a as [| c a IH]; [done |].
  rewrite ReFacts.append_cons. cbn [Py.upper]. by rewrite IH, ReFacts.append_cons.
Qed.

Lemma upper_idem (s : string) : Py.upper (Py.upper s) = Py.upper s.
Proof.
  induction s as [| c s IH]; [done |].
  cbn [Py.upper]. by rewrite to_upper_idem, IH.
Qed.

Lemma upper_join (l : list string) :
  Py.upper (Py.join "_" l) = Py.join "_" (Py.upper <$> l).
Proof.
  induction l as [| a [| b l] IH]; [done | done |].
  rewrite join_cons_cons, !upper_app, IH. reflexivity.
Qed.

Lemma join_app (sep : string) (l1 l2 : list string) :
  l1 ≠ [] → l2 ≠ [] →
  Py.join sep (l1 ++ l2) = Py.join sep l1 +:+ sep +:+ Py.join sep l2.
Proof.
  intros Hl1 Hl2. induction l1 as [| a [| b l1] IH]; [done | |].
  - destruct l2; [done | reflexivity].
  - change ((a :: b :: l1) ++ l2) with (a :: b :: (l1 ++ l2)).
    rewrite !join_cons_cons.
    change (b :: l1 ++ l2) with ((b :: l1) ++ l2).
    rewrite IH by done. by rewrite !ReFacts.append_assoc.
Qed.

Lemma length_append (a b : string) :
  String.length (a +:+ b) = (String.length a + String.length b)%nat.
Proof.
  induction a as [| c a IH]; [done |].
  rewrite ReFacts.append_cons. simpl. by rewrite IH.
Qed.

Lemma length_str_slice_from (i : nat) (s : string) :
  String.length (Py.str_slice_from i s) = (String.length s - i)%nat.
Proof.
  revert s. induction i as [| i IH]; intros s; simpl.
  - lia.
  - destruct s as [| c s]; [done |]. simpl. apply IH.
Qed.

Lemma str_slice_from_app (a b : string) :
  Py.str_slice_from (String.length a) (a +:+ b) = b.
Proof. induction a as [| c a IH]; [by destruct b | done]. Qed.

End CaseFacts.

(** ** The derived names *)

Lemma camel_case_free_of (x : ascii) (self : Extension) :
  fixed_by_case x →
  Forall (λ t, Py.occurs x t = false) (Py.split "_" (name self)) →
  ∃ camel, name_in_camel_case self = Ok camel ∧ Py.occurs x camel = false.
Proof.
  intros Hx Htoks. eexists. split; [reflexivity |].
  apply CaseFacts.occurs_join; [done |].
  apply Forall_fmap, Forall_drop. unfold Py.slice_from.
  eapply Forall_impl; [exact Htoks |]. intros t Ht. simpl.
  unfold Py.title. by rewrite CaseFacts.occurs_title_from.
Qed.

(** X12: the camel-cased name and the vendor tag never hold an
    underscore, whatever the name is. *)
Theorem camel_case_and_vendor_are_tokens (self : Extension) :
  (∃ camel, name_in_camel_case self = Ok camel ∧ token camel)
  ∧ (∀ v, vendor self = Ok v → token v).
Proof.
  split.
  - apply camel_case_free_of; [apply CaseFacts.underscore_fixed |].
    apply PyFacts.split_tokens.
  - intros v. unfold vendor, Py.index.
    pose proof (PyFacts.split_tokens "_" (name self)) as Htoks.
    destruct (Py.split "_" (name self) !! 1%nat) as [t |] eqn:Ht; [| done].
    intros [= <-]. rewrite Forall_forall in Htoks.
    apply Htoks. by apply list_elem_of_lookup_2 in Ht.
Qed.

Lemma camel_case_and_vendor_are_tokens_witness :
  token "EXT"
  ∧ ∃ camel, name_in_camel_case (descriptor "VK_EXT_transform_feedback" "tf") = Ok camel
             ∧ token camel.
Proof.
  split.
  - apply (proj2 (camel_case_and_vendor_are_tokens
                    (descriptor "VK_EXT_transform_feedback" "tf"))).
    reflexivity.
  - apply (proj1 (camel_case_and_vendor_are_tokens
                    (descriptor "VK_EXT_transform_feedback" "tf"))).
Defined.

(** X13: the name is put together again from its parts: when [vendor()]
    returns [v] and [pure_name()] returns [p], the name is a first token,
    an underscore, [v], and then either nothing more (and [p] is empty) or
    an underscore and [p]. *)
Theorem name_from_vendor_and_pure_name (self : Extension) (v p : string) :
  vendor self = Ok v →
  pure_name self = Ok p →
  ∃ ns, token ns
        ∧ (name self = ns +:+ "_" +:+ v +:+ "_" +:+ p
           ∨ (p = "" ∧ name self = ns +:+ "_" +:+ v)).
Proof.
  unfold vendor, pure_name, Py.index, Py.slice_from.
  pose proof (PyFacts.split_tokens "_" (name self)) as Htoks.
  pose proof (PyFacts.join_split "_" (name self)) as Hjoin.
  destruct (Py.split "_" (name self)) as [| ns [| t1 rest]]; [done | done |].
  simpl. intros [= <-] [= <-]. exists ns.
  split; [by inversion Htoks |].
  destruct rest as [| r rest]; [right | left]; by rewrite <- Hjoin.
Qed.

Lemma name_from_vendor_and_pure_name_witness :
  ∃ ns, token ns
        ∧ ("VK_EXT_transform_feedback" = ns +:+ "_" +:+ "EXT" +:+ "_" +:+ "transform_feedback"
           ∨ ("transform_feedback" = "" ∧ "VK_EXT_transform_feedback" = ns +:+ "_" +:+ "EXT")).
Proof.
  apply (name_from_vendor_and_pure_name (descriptor "VK_EXT_transform_feedback" "tf")
           "EXT" "transform_feedback"); reflexivity.
Defined.

(** X14: [name_with_vendor()] cuts three characters, not a token: for a
    name with something after its first underscore, it returns what
    follows that underscore exactly when what stands before it has two
    characters. *)
Theorem name_with_vendor_cuts_three (self : Extension) (ns tail : string) :
  name self = ns +:+ "_" +:+ tail →
  tail ≠ "" →
  name_with_vendor self = Ok tail ↔ String.length ns = 2%nat.
Proof.
  intros Hname Htail. unfold name_with_vendor. rewrite Hname. split.
  - intros Hcut. injection Hcut as Hcut.
    pose proof (f_equal String.length Hcut) as Hlen.
    change (String.length (Py.str_slice_from 3 (ns +:+ "_" +:+ tail)) = String.length tail)
      in Hlen.
    rewrite CaseFacts.length_str_slice_from, !CaseFacts.length_append in Hlen.
    destruct tail as [| c tail]; [done |]. simpl in Hlen. lia.
  - intros Hns. f_equal.
    rewrite <- (ReFacts.append_assoc ns "_" tail).
    replace 3%nat with (String.length (ns +:+ "_"))
      by (rewrite CaseFacts.length_append, Hns; reflexivity).
    apply CaseFacts.str_slice_from_app.
Qed.

Lemma name_with_vendor_cuts_three_witness :
  name_with_vendor (descriptor "VK_EXT_robustness2" "rb2") = Ok "EXT_robustness2"
  ∧ name_with_vendor (descriptor "VKSC_EXT_robustness2" "rb2") ≠ Ok "EXT_robustness2".
Proof.
  split.
  - apply (name_with_vendor_cuts_three (descriptor "VK_EXT_robustness2" "rb2")
             "VK" "EXT_robustness2"); [reflexivity | discriminate | reflexivity].
  - intros Hcut.
    apply (name_with_vendor_cuts_three (descriptor "VKSC_EXT_robustness2" "rb2")
             "VKSC" "EXT_robustness2") in Hcut; [discriminate | reflexivity | discriminate].
Defined.

Lemma physical_device_struct_matches (self : Extension) (word : string) :
  Py.occurs Re.newline (name self) = false →
  has_underscore (name self) →
  ∃ s, physical_device_struct self word = Ok s
       ∧ Re.matches
           (Re.Cat (Re.lit "VkPhysicalDevice")
              (Re.Cat (Re.Star Re.Dot) (Re.Cat (Re.lit word) (Re.Star Re.Dot)))) s
         = true.
Proof.
  intros Hnl Hus.
  destruct (camel_case_free_of Re.newline self CaseFacts.newline_fixed
              (CaseFacts.occurs_split _ "_" _ Hnl)) as (camel & Hcamel & Hfree).
  apply vendor_returns_iff in Hus as [v Hv].
  unfold physical_device_struct. rewrite Hcamel, Hv. cbn [bind].
  eexists. split; [reflexivity |].
  apply ReFacts.matches_prefix_word.
  destruct (Py.endswith camel word) eqn:Hend.
  - apply PyFacts.endswith_spec in Hend as [q ->].
    rewrite PyFacts.occurs_app in Hfree. apply orb_false_iff in Hfree as [Hq _].
    exists q, v. split; [| done]. by rewrite ReFacts.append_assoc.
  - by exists camel, v.
Qed.

(** X15: the struct names the descriptor derives are the names the
    registry reader recognises: for a name with an underscore and no
    newline, [physical_device_struct("Features")] passes
    [is_features_struct] and [physical_device_struct("Properties")] passes
    [is_properties_struct]. *)
Theorem physical_device_struct_is_recognised (self : Extension) :
  Py.occurs Re.newline (name self) = false →
  has_underscore (name self) →
  (∃ s, physical_device_struct self "Features" = Ok s
        ∧ is_features_struct (Some s) = Ok true)
  ∧ (∃ s, physical_device_struct self "Properties" = Ok s
          ∧ is_properties_struct (Some s) = Ok true).
Proof.
  intros Hnl Hus. split.
  - destruct (physical_device_struct_matches self "Features" Hnl Hus) as (s & Hs & Hm).
    exists s. split; [done |]. unfold is_features_struct, features_re. by f_equal.
  - destruct (physical_device_struct_matches self "Properties" Hnl Hus) as (s & Hs & Hm).
    exists s. split; [done |]. unfold is_properties_struct, properties_re. by f_equal.
Qed.

Lemma physical_device_struct_is_recognised_witness :
  (∃ s, physical_device_struct (descriptor "VK_EXT_robustness2" "rb2") "Features" = Ok s
        ∧ is_features_struct (Some s) = Ok true)
  ∧ (∃ s, physical_device_struct (descriptor "VK_EXT_robustness2" "rb2") "Properties" = Ok s
          ∧ is_properties_struct (Some s) = Ok true).
Proof.
  apply (physical_device_struct_is_recognised (descriptor "VK_EXT_robustness2" "rb2")).
  - reflexivity.
  - by exists "VK", "EXT_robustness2".
Defined.

(** X16: for a name of at least three tokens, [stype(struct)] is the
    underscore-join of the five fixed words, the tokens after the first
    two in upper case, [struct] and the vendor tag. *)
Theorem stype_joins_tokens (self : Extension) (struct ns vnd t : string)
    (rest : list string) :
  Forall token (ns :: vnd :: t :: rest) →
  name self = Py.join "_" (ns :: vnd :: t :: rest) →
  stype self struct
  = Ok (Py.join "_" (["VK"; "STRUCTURE"; "TYPE"; "PHYSICAL"; "DEVICE"]
                     ++ (Py.upper <$> t :: rest) ++ [struct; vnd])).
Proof.
  intros Htoks Hname.
  rewrite stype_vendor, (vendor_second_token self ns vnd (t :: rest) Htoks Hname).
  rewrite Hname, (PyFacts.split_join "_" ns (vnd :: t :: rest) Htoks).
  cbn [bind Py.slice_from drop]. f_equal.
  rewrite CaseFacts.upper_join.
  rewrite (CaseFacts.join_app "_" ["VK"; "STRUCTURE"; "TYPE"; "PHYSICAL"; "DEVICE"]) by done.
  rewrite (CaseFacts.join_app "_" (Py.upper <$> t :: rest) [struct; vnd]) by done.
  reflexivity.
Qed.

Lemma stype_joins_tokens_witness :
  stype (descriptor "VK_EXT_transform_feedback" "tf") "FEATURES"
  = Ok (Py.join "_" ["VK"; "STRUCTURE"; "TYPE"; "PHYSICAL"; "DEVICE";
                     "TRANSFORM"; "FEEDBACK"; "FEATURES"; "EXT"]).
Proof.
  apply (stype_joins_tokens (descriptor "VK_EXT_transform_feedback" "tf") "FEATURES"
           "VK" "EXT" "transform" ["feedback"]); [by repeat constructor | reflexivity].
Defined.

(** X17: the extension-name constant is in upper case, and two names that
    differ only in the case of their letters get the same constant. *)
Theorem extension_name_upper_case (self other : Extension) (s : string) :
  extension_name self = Ok s →
  Py.upper s = s
  ∧ (Py.upper (name other) = Py.upper (name self) → extension_name other = Ok s).
Proof.
  unfold extension_name. intros [= <-]. split.
  - by rewrite CaseFacts.upper_app, CaseFacts.upper_idem.
  - by intros ->.
Qed.

Lemma extension_name_upper_case_witness :
  Py.upper "VK_EXT_ROBUSTNESS2_EXTENSION_NAME" = "VK_EXT_ROBUSTNESS2_EXTENSION_NAME"
  ∧ extension_name (descriptor "vk_ext_Robustness2" "") = Ok "VK_EXT_ROBUSTNESS2_EXTENSION_NAME".
Proof.
  destruct (extension_name_upper_case (descriptor "VK_EXT_robustness2" "rb2")
              (descriptor "vk_ext_Robustness2" "") "VK_EXT_ROBUSTNESS2_EXTENSION_NAME")
    as [Hupper Hsame]; [reflexivity |].
  split; [exact Hupper | by apply Hsame].
Defined.

(** * Further properties of Version *)

Lemma str_digit (a : Z) :
  (0 ≤ a ≤ 9)%Z → Py.str a = String (ascii_of_nat (48 + Z.to_nat a)) EmptyString.
Proof.
  intros Ha.
  assert (a = 0 ∨ a = 1 ∨ a = 2 ∨ a = 3 ∨ a = 4 ∨ a = 5 ∨ a = 6 ∨ a = 7 ∨ a = 8 ∨ a = 9)%Z
    as Hcases by lia.
  repeat destruct Hcases as [-> | Hcases]; try subst a; reflexivity.
Qed.

Lemma str_digit_inj (a b : Z) :
  (0 ≤ a ≤ 9)%Z → (0 ≤ b ≤ 9)%Z →
  ascii_of_nat (48 + Z.to_nat a) = ascii_of_nat (48 + Z.to_nat b) → a = b.
Proof.
  intros Ha Hb Heq. apply (f_equal nat_of_ascii) in Heq.
  rewrite !nat_ascii_embedding in Heq by lia. lia.
Qed.

(** X18: for a struct version of two decimal digits, [struct()] is a text
    of two characters from which the struct version can be told; beyond
    one digit it cannot: (1, 10) and (11, 0) both give 110. *)
Theorem Version_struct_two_digits (v1 v2 : Version) :
  (0 ≤ fst (struct_version v1) ≤ 9)%Z → (0 ≤ snd (struct_version v1) ≤ 9)%Z →
  (0 ≤ fst (struct_version v2) ≤ 9)%Z → (0 ≤ snd (struct_version v2) ≤ 9)%Z →
  String.length (Version_struct v1) = 2%nat
  ∧ (Version_struct v1 = Version_struct v2 → struct_version v1 = struct_version v2)
  ∧ Version_struct (Version_init (1, 10, 0)%Z None)
    = Version_struct (Version_init (11, 0, 0)%Z None).
Proof.
  intros Ha1 Hb1 Ha2 Hb2. unfold Version_struct.
  destruct (struct_version v1) as [a1 b1], (struct_version v2) as [a2 b2]. simpl in *.
  rewrite !str_digit by done. split; [done |]. split; [| done].
  intros [= Ha Hb]. f_equal; by apply str_digit_inj.
Qed.

Lemma Version_struct_two_digits_witness :
  String.length (Version_struct (Version_init (1, 2, 0)%Z None)) = 2%nat
  ∧ (Version_struct (Version_init (1, 2, 0)%Z None)
     = Version_struct (Version_init (1, 2, 198)%Z None) →
     struct_version (Version_init (1, 2, 0)%Z None)
     = struct_version (Version_init (1, 2, 198)%Z None)).
Proof.
  destruct (Version_struct_two_digits (Version_init (1, 2, 0)%Z None)
              (Version_init (1, 2, 198)%Z None))
    as (Hlen & Hinj & _); simpl; try lia.
  by split.
Defined.

(** X19: the struct version can be read back from the name [stype]
    builds: for a struct version of non-negative components, the seventh
    and eighth underscore-separated tokens of [stype(struct)] are texts
    that [int] reads as the major and the minor component, and the tokens
    after them are those of [struct]. *)
Theorem Version_stype_reads_back (self : Version) (struct : string) (major minor : Z) :
  struct_version self = (major, minor) →
  (0 ≤ major)%Z → (0 ≤ minor)%Z →
  ∃ smajor sminor,
    Py.split "_" (Version_stype self struct)
    = ["VK"; "STRUCTURE"; "TYPE"; "PHYSICAL"; "DEVICE"; "VULKAN"; smajor; sminor]
      ++ Py.split "_" struct
    ∧ Py.int smajor = Ok major ∧ Py.int sminor = Ok minor.
Proof.
  intros Hsv Hmajor Hminor. exists (Py.str major), (Py.str minor).
  split; [| split; by apply PyFacts.int_str].
  unfold Version_stype. rewrite Hsv. cbn [fst snd].
  change ("VK_STRUCTURE_TYPE_PHYSICAL_DEVICE_VULKAN_"
          +:+ Py.str major +:+ "_" +:+ Py.str minor +:+ "_" +:+ struct)
    with ("VK" +:+ String "_" ("STRUCTURE" +:+ String "_" ("TYPE" +:+ String "_"
            ("PHYSICAL" +:+ String "_" ("DEVICE" +:+ String "_" ("VULKAN" +:+ String "_"
               (Py.str major +:+ String "_" (Py.str minor +:+ String "_" struct)))))))).
  rewrite !PyFacts.split_cons by (done || by apply PyFacts.str_token).
  reflexivity.
Qed.

Lemma Version_stype_reads_back_witness :
  ∃ smajor sminor,
    Py.split "_" (Version_stype (Version_init (1, 2, 0)%Z None) "FEATURES")
    = ["VK"; "STRUCTURE"; "TYPE"; "PHYSICAL"; "DEVICE"; "VULKAN"; smajor; sminor]
      ++ Py.split "_" "FEATURES"
    ∧ Py.int smajor = Ok 1%Z ∧ Py.int sminor = Ok 2%Z.
Proof.
  apply (Version_stype_reads_back (Version_init (1, 2, 0)%Z None) "FEATURES" 1 2);
    [reflexivity | lia | lia].
Defined.

(** * Constructing again from the same document *)

Lemma init_loop_lookup (exts : list Element) (registry : Registry) (n : string) :
  snd (init_loop exts registry) !! n
  = match last_stored exts n with
    | Some entry => Some entry
    | None => registry !! n
    end.
Proof.
  revert registry. induction exts as [| ext exts IH]; intros registry; [done |].
  simpl. case_bool_decide; [apply IH |].
  destruct (build_entry ext) as [[name entry] | e]; [| done].
  rewrite IH. destruct (last_stored exts n); [done |].
  rewrite lookup_insert. by destruct (decide (name = n)).
Qed.

Lemma init_loop_outcome (exts : list Element) (registry1 registry2 : Registry) :
  fst (init_loop exts registry1) = fst (init_loop exts registry2).
Proof.
  revert registry1 registry2. induction exts as [| ext exts IH]; intros r1 r2; [done |].
  simpl. case_bool_decide; [apply IH |].
  destruct (build_entry ext) as [[name entry] | e]; [apply IH | done].
Qed.

(** X20: constructing a registry once more from the same document, by any
    instance, changes nothing: it has the outcome of the first
    construction and leaves the dictionary as that one left it. *)
Theorem construction_idempotent (first second : ExtensionRegistry) (vkxml : Element)
    (registry : Registry) :
  ExtensionRegistry_init second vkxml (snd (ExtensionRegistry_init first vkxml registry))
  = ExtensionRegistry_init first vkxml registry.
Proof.
  unfold ExtensionRegistry_init, self_registry.
  set (exts := findall vkxml "extensions/extension").
  apply injective_projections; [apply init_loop_outcome |].
  apply map_eq. intros n. rewrite !init_loop_lookup.
  by destruct (last_stored exts n).
Qed.
